(** * ExecutionTree: the dataset execution-tree scheduler

    A shallow embedding of
    [mindspore/ccsrc/dataset/engine/execution_tree.cc] and the properties
    of its lifecycle, traversal, prepare pipeline and launch.

    Operators live in a store keyed by address, because the C++ code shares
    them through [std::shared_ptr] and mutates them in place.  A null
    [shared_ptr] is [None].  Every member function of [ExecutionTree] takes
    the address [this] of the tree, as the C++ member functions do, and
    transforms a [World]; it answers [None] where the C++ program
    dereferences a null or dangling pointer (or, for the recursive walks,
    where the fuel is used up). *)

From Stdlib Require Import ZArith String List Lia.
From stdpp Require Import gmap strings list fin_maps pretty.

Local Open Scope string_scope.
Local Open Scope list_scope.
Local Open Scope Z_scope.

(** ** Data model *)

Abbreviation addr := positive (only parsing).
Abbreviation tree_ptr := positive (only parsing).

(** A [std::shared_ptr<DatasetOp>]; [None] is [nullptr]. *)
Abbreviation shared_ptr := (option positive) (only parsing).
Abbreviation nullptr := (@None positive) (only parsing).

(** Modelled from the spec: the enumeration [TreeState] is declared in
    execution_tree.h, which is not among the sources.  The spec lists the
    states in their order Init, Building, Prepare, Ready, Executing; the
    enumerators are numbered from 0 in that order. *)
Inductive TreeState : Set :=
  | kDeTStateInit
  | kDeTStateBuilding
  | kDeTStatePrepare
  | kDeTStateReady
  | kDeTStateExecuting.

#[global] Instance TreeState_eq_dec : EqDecision TreeState.
Proof. solve_decision. Defined.

(** [static_cast<int>(tree_state_)] *)
Definition TreeState_to_int (s : TreeState) : Z :=
  match s with
  | kDeTStateInit => 0
  | kDeTStateBuilding => 1
  | kDeTStatePrepare => 2
  | kDeTStateReady => 3
  | kDeTStateExecuting => 4
  end.

(** Modelled from the spec: [DatasetOp::OpState] is declared in dataset_op.h,
    which is not among the sources.  [Launch] only ever stores
    [kDeOpRunning]. *)
Inductive OpState : Set :=
  | kDeOpRunning
  | kDeOpIdle
  | kDeOpTerminated.

#[global] Instance OpState_eq_dec : EqDecision OpState.
Proof. solve_decision. Defined.

(** Modelled from the spec: [Status] and the macros [RETURN_STATUS_UNEXPECTED]
    and [RETURN_IF_NOT_OK] come from status.h, which is not among the sources.
    A status is either OK or a failure that carries a code and a message.
    [RETURN_STATUS_UNEXPECTED(msg)] returns a failure of the code
    [kUnexpectedError] with message [msg]: this is the error kind the spec
    calls InvalidState when the message reports the observed and the
    expected tree state.  Failures of the collaborators (passes, hooks, the
    task group, profiling) carry codes of their own. *)
Inductive StatusCode : Set :=
  | kOK
  | kUnexpectedError
  | kCollaboratorError (n : Z).

#[global] Instance StatusCode_eq_dec : EqDecision StatusCode.
Proof. solve_decision. Defined.

Record Status : Set := mkStatus { get_code : StatusCode; err_msg : string }.

#[global] Instance Status_eq_dec : EqDecision Status.
Proof. solve_decision. Defined.

Definition Status_OK : Status := mkStatus kOK "".

Definition IsOk (s : Status) : bool :=
  match get_code s with kOK => true | _ => false end.

Definition STATUS_UNEXPECTED (msg : string) : Status :=
  mkStatus kUnexpectedError msg.

(** [std::to_string] on an [int]: the decimal numeral. *)
Definition to_string (n : Z) : string := pretty n.

(** The operator ids and the id counter are 32-bit signed integers
    ([int32_t]; [Launch] passes an id to [std::to_string]).  They are kept
    as [Z]; the increment of the counter is written with its wrap-around:
    after 2147483647 comes -2147483648. *)
Definition int32_min : Z := -2147483648.
Definition int32_max : Z := 2147483647.

Definition int32_wrap (z : Z) : Z := (z + 2 ^ 31) mod 2 ^ 32 - 2 ^ 31.

(** Modelled from the spec: [DatasetOp] is declared in dataset_op.h, which is
    not among the sources.  The fields are the members that
    execution_tree.cc reads and writes: [tree_], [operator_id_], [state_] and
    [child_]; [oc_queue_size_] is the output connector size that decides
    [inlined()] (see the comment in [Launch]). *)
Record DatasetOp : Set := mkDatasetOp {
  tree_ : option tree_ptr;
  operator_id_ : Z;
  state_ : OpState;
  child_ : list shared_ptr;
  oc_queue_size_ : Z
}.

(** Modelled from the spec: the sentinel id of an operator that has not been
    associated with a tree (dataset_op.h is not among the sources). *)
Definition kInvalidOperatorId : Z := -1.

Definition set_id (id : Z) (op : DatasetOp) : DatasetOp :=
  {| tree_ := tree_ op; operator_id_ := id; state_ := state_ op;
     child_ := child_ op; oc_queue_size_ := oc_queue_size_ op |}.

Definition set_tree (t : tree_ptr) (op : DatasetOp) : DatasetOp :=
  {| tree_ := Some t; operator_id_ := operator_id_ op; state_ := state_ op;
     child_ := child_ op; oc_queue_size_ := oc_queue_size_ op |}.

Definition set_state (s : OpState) (op : DatasetOp) : DatasetOp :=
  {| tree_ := tree_ op; operator_id_ := operator_id_ op; state_ := s;
     child_ := child_ op; oc_queue_size_ := oc_queue_size_ op |}.

(** "An inlined operator is one that has an output connector size of 0". *)
Definition inlined (op : DatasetOp) : bool := oc_queue_size_ op =? 0.

(** What a task that [Launch] asks for runs: the run entry point of an
    operator, or the monitor. *)
Inductive Callable : Set :=
  | RunOp (op : addr)
  | RunMonitor.

#[global] Instance Callable_eq_dec : EqDecision Callable.
Proof. solve_decision. Defined.

Record Task : Set := mkTask { task_name : string; task_body : Callable }.

(** The members of [ExecutionTree].  [tg_] is the list of the tasks that the
    task group was asked to create and accepted, oldest first.

    Modelled from the spec: the members are declared in execution_tree.h,
    which is not among the sources; the counter [id_count_] is a 32-bit
    signed integer, and [prepare_flags_] a 32-bit mask. *)
Record ExecutionTree : Set := mkExecutionTree {
  tree_state_ : TreeState;
  id_count_ : Z;
  root_ : shared_ptr;
  prepare_flags_ : Z;
  eoe_stack_ : list shared_ptr;
  sampler_stack_ : list shared_ptr;
  tg_ : list Task
}.

Definition kDePrepNone : Z := 0.

(** The constructor [ExecutionTree::ExecutionTree()]. *)
Definition ExecutionTree_new : ExecutionTree :=
  {| tree_state_ := kDeTStateInit; id_count_ := 0; root_ := None;
     prepare_flags_ := kDePrepNone; eoe_stack_ := []; sampler_stack_ := [];
     tg_ := [] |}.

Definition with_tree_state (s : TreeState) (t : ExecutionTree) : ExecutionTree :=
  {| tree_state_ := s; id_count_ := id_count_ t; root_ := root_ t;
     prepare_flags_ := prepare_flags_ t; eoe_stack_ := eoe_stack_ t;
     sampler_stack_ := sampler_stack_ t; tg_ := tg_ t |}.

Definition with_id_count (c : Z) (t : ExecutionTree) : ExecutionTree :=
  {| tree_state_ := tree_state_ t; id_count_ := c; root_ := root_ t;
     prepare_flags_ := prepare_flags_ t; eoe_stack_ := eoe_stack_ t;
     sampler_stack_ := sampler_stack_ t; tg_ := tg_ t |}.

Definition with_root (r : shared_ptr) (t : ExecutionTree) : ExecutionTree :=
  {| tree_state_ := tree_state_ t; id_count_ := id_count_ t; root_ := r;
     prepare_flags_ := prepare_flags_ t; eoe_stack_ := eoe_stack_ t;
     sampler_stack_ := sampler_stack_ t; tg_ := tg_ t |}.

Definition with_prepare_flags (f : Z) (t : ExecutionTree) : ExecutionTree :=
  {| tree_state_ := tree_state_ t; id_count_ := id_count_ t; root_ := root_ t;
     prepare_flags_ := f; eoe_stack_ := eoe_stack_ t;
     sampler_stack_ := sampler_stack_ t; tg_ := tg_ t |}.

Definition with_tg (g : list Task) (t : ExecutionTree) : ExecutionTree :=
  {| tree_state_ := tree_state_ t; id_count_ := id_count_ t; root_ := root_ t;
     prepare_flags_ := prepare_flags_ t; eoe_stack_ := eoe_stack_ t;
     sampler_stack_ := sampler_stack_ t; tg_ := g |}.

(** Modelled from the spec: [BitSet] and [BitClear] are helpers of a header
    that is not among the sources; the spec gives them as bitwise OR and
    bitwise AND-NOT on the 32-bit mask. *)
Definition uint32_max : Z := 4294967295.

Definition BitSet (bits mask : Z) : Z := Z.lor bits mask.

Definition BitClear (bits mask : Z) : Z :=
  Z.land bits (Z.lxor mask uint32_max).

Section Tree.

(** The state of the collaborators that this file does not own: the
    internals of the operators, of the passes and of the profiling
    manager. *)
Context {Ext : Type}.

Record World : Type := mkWorld {
  tree : ExecutionTree;
  ops : gmap positive DatasetOp;
  ext : Ext
}.

Definition with_tree (t : ExecutionTree) (w : World) : World :=
  {| tree := t; ops := ops w; ext := ext w |}.

Definition with_ops (h : gmap positive DatasetOp) (w : World) : World :=
  {| tree := tree w; ops := h; ext := ext w |}.

(** A member function that returns a [Status]. *)
Definition Exec : Type := World -> option (Status * World).

Definition RETURN (s : Status) : Exec := fun w => Some (s, w).

(** [RETURN_IF_NOT_OK(m); k] *)
Definition and_then (m k : Exec) : Exec := fun w =>
  match m w with
  | None => None
  | Some (s, w') => if IsOk s then k w' else Some (s, w')
  end.

Notation "'RETURN_IF_NOT_OK' m ;; k" := (and_then m k)
  (at level 100, m at next level, k at level 200, right associativity,
   format "'[v' 'RETURN_IF_NOT_OK'  m ;; '/' k ']'").

(** *** Association and root assignment *)

Definition AssociateNode (this : tree_ptr) (op : addr) : Exec := fun w =>
  match ops w !! op with
  | None => None
  | Some o =>
    (* If we are already a part of the tree, no-op *)
    if decide (tree_ o = Some this) then Some (Status_OK, w)
    else if decide (tree_state_ (tree w) <> kDeTStateInit
                    /\ tree_state_ (tree w) <> kDeTStateBuilding) then
      Some (STATUS_UNEXPECTED
              ("Invalid tree state for adding a node. Current state: "
               +:+ to_string (TreeState_to_int (tree_state_ (tree w)))
               +:+ " Expected states: "
               +:+ to_string (TreeState_to_int kDeTStateInit) +:+ " or "
               +:+ to_string (TreeState_to_int kDeTStateBuilding)), w)
    else
      (* Enter the building state if we were not already there *)
      let t1 := with_tree_state kDeTStateBuilding (tree w) in
      (* Assign an id to the operator *)
      let o1 := set_id (id_count_ t1) o in
      let t2 := with_id_count (int32_wrap (id_count_ t1 + 1)) t1 in
      (* Assign our tree into the op *)
      let o2 := set_tree this o1 in
      Some (Status_OK, {| tree := t2; ops := <[op := o2]> (ops w); ext := ext w |})
  end.

Definition AssignRoot (this : tree_ptr) (op : addr) : Exec := fun w =>
  (* Tree must be in building state before we can assign root to it *)
  if decide (tree_state_ (tree w) <> kDeTStateBuilding) then
    Some (STATUS_UNEXPECTED
            ("Invalid tree state for assigning a root node. Current state: "
             +:+ to_string (TreeState_to_int (tree_state_ (tree w)))
             +:+ " Expected state: "
             +:+ to_string (TreeState_to_int kDeTStateBuilding)), w)
  else
    match ops w !! op with
    | None => None
    | Some o =>
      (RETURN_IF_NOT_OK
         (if decide (operator_id_ o = kInvalidOperatorId)
          then AssociateNode this op else RETURN Status_OK) ;;
       (* Then add it as the root. *)
       fun w' => Some (Status_OK, with_tree (with_root (Some op) (tree w')) w')) w
    end.

(** *** Loops over the children *)

(** A loop over a vector whose body updates a local state [S] and may be
    undefined. *)
Fixpoint for_each {A S : Type} (body : A -> S -> option S) (l : list A)
    (s : S) : option S :=
  match l with
  | [] => Some s
  | x :: l' =>
    match body x s with
    | None => None
    | Some s' => for_each body l' s'
    end
  end.

(** A loop whose body is [RETURN_IF_NOT_OK(f(x))]. *)
Fixpoint for_each_ok {A : Type} (f : A -> Exec) (l : list A) : Exec :=
  match l with
  | [] => RETURN Status_OK
  | x :: l' => RETURN_IF_NOT_OK f x ;; for_each_ok f l'
  end.

(** *** The postorder iterator *)

(** [ExecutionTree::Iterator::PostOrderTraverse]: appends to [nodes_] the
    nodes below [node] in postorder.  The recursion follows the pointers of
    the store, so it carries fuel: one unit for each level of the tree. *)
Fixpoint PostOrderTraverse (fuel : nat) (h : gmap positive DatasetOp)
    (node : shared_ptr) (nodes_ : list shared_ptr) : option (list shared_ptr) :=
  match node with
  | None => Some nodes_
  | Some a =>
    match fuel with
    | O => None
    | S fuel' =>
      match h !! a with
      | None => None
      | Some o =>
        match for_each (PostOrderTraverse fuel' h) (child_ o) nodes_ with
        | None => None
        | Some nodes_' => Some (nodes_' ++ [Some a])
        end
      end
    end
  end.

(** The constructor [ExecutionTree::Iterator::Iterator(root)]: the nodes in
    postorder, then the null pointer that marks the end.  ([ind_] starts
    at 0, the head of the list.) *)
Definition Iterator (fuel : nat) (h : gmap positive DatasetOp)
    (root : shared_ptr) : option (list shared_ptr) :=
  match PostOrderTraverse fuel h root [] with
  | None => None
  | Some nodes_ => Some (nodes_ ++ [None])
  end.

(** Modelled from the spec: [begin], [end] and the operators of the
    iterator are defined in execution_tree.h, which is not among the
    sources.  [begin()] builds the iterator of the tree's root, and the
    iterator is at the end when its current node is the null end marker. *)
Definition begin (fuel : nat) (w : World) : option (list shared_ptr) :=
  Iterator fuel (ops w) (root_ (tree w)).

(** *** Printing *)

(** [ExecutionTree::PrintNode] writes to a stream that this file does not
    model; what matters here is that it dereferences [dataset_op] and every
    child without a null check.  [Some tt] says that the walk is defined. *)
Fixpoint PrintNode (fuel : nat) (h : gmap positive DatasetOp)
    (dataset_op : shared_ptr) : option unit :=
  match fuel with
  | O => None
  | S fuel' =>
    match dataset_op with
    | None => None
    | Some a =>
      match h !! a with
      | None => None
      | Some o =>
        (* Descend to children *)
        for_each (fun c _ => PrintNode fuel' h c) (child_ o) tt
      end
    end
  end.

(** [ExecutionTree::Print(out, op)] for a null [op], which is how
    [ss << *this] in [Launch] prints the tree (the [operator<<] of the tree
    is defined in execution_tree.h, which is not among the sources): the
    summary, then the details, both from [root_]. *)
Definition Print (fuel : nat) (w : World) : option unit :=
  match PrintNode fuel (ops w) (root_ (tree w)) with
  | None => None
  | Some _ => PrintNode fuel (ops w) (root_ (tree w))
  end.

(** *** Collaborators *)

(** A rewrite pass: [pass->Run(tree, &modified)]. *)
Definition Pass : Type := tree_ptr -> bool -> World -> Status * bool * World.

(** What this file consumes and does not own (their sources are not part
    of execution_tree.cc):
    - the task group: [tg_admit g t] is the answer of the group that holds
      the tasks [g] to the request to create [t];
    - the profiling manager;
    - the removal pass;
    - the hooks of the operators.  [PrepareFlags] is a const virtual member
      function: its answer is fixed by the class of the node. *)
Class Collaborators : Type := {
  tg_admit : list Task -> Task -> Status;
  IsProfilingEnable : Ext -> bool;
  ProfilingInitialize : Ext -> Status * Ext;
  RemovalPass : Pass;
  PrepareNodePreAction : addr -> World -> Status * World;
  PrepareNodePostAction : addr -> World -> Status * World;
  PrepareFlags : addr -> Z
}.

Context {collaborators : Collaborators}.

(** [tg_->CreateAsyncTask(name, f)] *)
Definition CreateAsyncTask (name : string) (f : Callable) : Exec := fun w =>
  let t := mkTask name f in
  let s := tg_admit (tg_ (tree w)) t in
  if IsOk s
  then Some (s, with_tree (with_tg (tg_ (tree w) ++ [t]) (tree w)) w)
  else Some (s, w).

(** [profiling_manager_->Initialize()] *)
Definition profiling_Initialize : Exec := fun w =>
  let '(s, e) := ProfilingInitialize (ext w) in
  Some (s, {| tree := tree w; ops := ops w; ext := e |}).

(** *** Launch *)

(** The loop of [Launch] over the iterator, from its current position. *)
Fixpoint Launch_loop (itr : list shared_ptr) : Exec :=
  match itr with
  | [] => fun _ => None
  | None :: _ => RETURN Status_OK
  | Some a :: itr' => fun w =>
    match ops w !! a with
    | None => None
    | Some o =>
      let w1 := with_ops (<[a := set_state kDeOpRunning o]> (ops w)) w in
      if negb (inlined o) then
        (RETURN_IF_NOT_OK
           CreateAsyncTask
             ("Op launched, OperatorId:" +:+ to_string (operator_id_ o))
             (RunOp a) ;;
         Launch_loop itr') w1
      else Launch_loop itr' w1
    end
  end.

Definition Launch (fuel : nat) (this : tree_ptr) : Exec := fun w =>
  (* Tree must be built and prepared before it can be launched! *)
  if decide (tree_state_ (tree w) <> kDeTStateReady) then
    Some (STATUS_UNEXPECTED
            ("Invalid tree state for launching tree. Current state: "
             +:+ to_string (TreeState_to_int (tree_state_ (tree w)))
             +:+ " Expected state: "
             +:+ to_string (TreeState_to_int kDeTStateReady)), w)
  else
    match Print fuel w with
    | None => None
    | Some _ =>
      (RETURN_IF_NOT_OK
         (if IsProfilingEnable (ext w) then
            (RETURN_IF_NOT_OK profiling_Initialize ;;
             CreateAsyncTask "Monitor Thread launched" RunMonitor)
          else RETURN Status_OK) ;;
       fun w1 =>
         match begin fuel w1 with
         | None => None
         | Some itr =>
           (RETURN_IF_NOT_OK Launch_loop itr ;;
            fun w2 =>
              Some (Status_OK,
                    with_tree (with_tree_state kDeTStateExecuting (tree w2)) w2))
             w1
         end) w
    end.

(** *** The prepare pipeline *)

(** The loop of [PrepareTreePreAction] over [pre_actions]. *)
Fixpoint run_passes (this : tree_ptr) (passes : list Pass) (modified : bool)
    : Exec :=
  match passes with
  | [] => RETURN Status_OK
  | pass :: passes' => fun w =>
    let '(s, modified', w') := pass this modified w in
    if IsOk s then run_passes this passes' modified' w' else Some (s, w')
  end.

Definition PrepareTreePreAction (this : tree_ptr) : Exec :=
  let modified := false in
  let pre_actions := [RemovalPass] in
  run_passes this pre_actions modified.

Definition PrepareTreePostAction (this : tree_ptr) : Exec := fun w =>
  (* The tree is ready to be prepared. *)
  Some (Status_OK, with_tree (with_tree_state kDeTStatePrepare (tree w)) w).

Definition Optimize (this : tree_ptr) : Exec := RETURN Status_OK.

Definition hook (f : addr -> World -> Status * World) (a : addr) : Exec :=
  fun w => Some (f a w).

Definition set_prepare_flags (f : Z) (w : World) : World :=
  with_tree (with_prepare_flags f (tree w)) w.

(** [ExecutionTree::PrepareNode].  The range-for visits the children that
    [child_] holds when the loop starts. *)
Fixpoint PrepareNode (fuel : nat) (this : tree_ptr) (dataset_op : shared_ptr)
    : Exec :=
  match fuel with
  | O => fun _ => None
  | S fuel' =>
    match dataset_op with
    | None => fun _ => None
    | Some a => fun w =>
      match ops w !! a with
      | None => None
      | Some _ =>
        (* execute PreAction *)
        (RETURN_IF_NOT_OK hook PrepareNodePreAction a ;;
         fun w1 =>
           (* make any prepare flags updates based on this operator *)
           let op_prep_flags := PrepareFlags a mod 2 ^ 32 in
           let w2 := set_prepare_flags
                       (BitSet (prepare_flags_ (tree w1)) op_prep_flags) w1 in
           match ops w2 !! a with
           | None => None
           | Some o =>
             (RETURN_IF_NOT_OK
                (* Now, descend to children *)
                for_each_ok (PrepareNode fuel' this) (child_ o) ;;
              RETURN_IF_NOT_OK hook PrepareNodePostAction a ;;
              (* Then clear the flags from this op *)
              fun w3 =>
                Some (Status_OK,
                      set_prepare_flags
                        (BitClear (prepare_flags_ (tree w3)) op_prep_flags) w3))
               w2
           end) w
      end
    end
  end.

Definition PrepareDeprecated (fuel : nat) (this : tree_ptr) : Exec := fun w =>
  (* Tree must be in pending prepare state *)
  if decide (tree_state_ (tree w) <> kDeTStatePrepare) then
    Some (STATUS_UNEXPECTED
            ("Invalid tree state for preparing the tree. Current state: "
             +:+ to_string (TreeState_to_int (tree_state_ (tree w)))
             +:+ " Expected state: "
             +:+ to_string (TreeState_to_int kDeTStatePrepare)), w)
  else
    (* Start the recursive prepare *)
    (RETURN_IF_NOT_OK PrepareNode fuel this (root_ (tree w)) ;;
     fun w' =>
       Some (Status_OK, with_tree (with_tree_state kDeTStateReady (tree w')) w'))
      w.

Definition Prepare (fuel : nat) (this : tree_ptr) : Exec :=
  (* Pre optimization compulsory transformation *)
  RETURN_IF_NOT_OK PrepareTreePreAction this ;;
  (* Optimization transformation *)
  RETURN_IF_NOT_OK Optimize this ;;
  (* Post optimization compulsory transformation *)
  RETURN_IF_NOT_OK PrepareTreePostAction this ;;
  (* Existing transformation implementation, will be removed later *)
  RETURN_IF_NOT_OK PrepareDeprecated fuel this ;;
  RETURN Status_OK.

End Tree.

Arguments World Ext : clear implicits.
Arguments Exec Ext : clear implicits.
Arguments Pass Ext : clear implicits.
Arguments Collaborators Ext : clear implicits.

Notation "'RETURN_IF_NOT_OK' m ;; k" := (and_then m k)
  (at level 100, m at next level, k at level 200, right associativity,
   format "'[v' 'RETURN_IF_NOT_OK'  m ;; '/' k ']'").

(** ** Callers *)

(** A builder that associates the operators [nodes] one after the other and
    stops at the first failure. *)
Definition AssociateNodes {Ext : Type} (this : tree_ptr) (nodes : list addr)
    : Exec Ext :=
  for_each_ok (AssociateNode this) nodes.

(** The outcome of [AssociateNode] on an operator that is new to the tree:
    it takes the id [c] and the back-reference [this]. *)
Definition associated (this : tree_ptr) (c : Z) (o : DatasetOp) : DatasetOp :=
  set_tree this (set_id c o).

(** The message of the failure that the spec calls InvalidState: what the
    operation was, the observed state, the expected state. *)
Definition InvalidState (what : string) (observed : TreeState)
    (expected : string) (s : Status) : Prop :=
  get_code s = kUnexpectedError /\
  err_msg s = "Invalid tree state for " +:+ what +:+ ". Current state: "
              +:+ to_string (TreeState_to_int observed) +:+ expected.

(** ** Trees in the store *)

#[local] Set Warnings "-register-all".

(** The shape of a tree of operators: a node and its children in stored
    order. *)
Inductive Shape : Set := Node (a : addr) (cs : list Shape).

(** The children's subtrees from left to right, then the node. *)
Fixpoint postorder (s : Shape) : list addr :=
  match s with
  | Node a cs => flat_map postorder cs ++ [a]
  end.

(** The number of levels. *)
Fixpoint height (s : Shape) : nat :=
  match s with
  | Node _ cs => S (max_list (map height cs))
  end.

(** The subtrees of a tree, itself included. *)
Fixpoint subshapes (s : Shape) : list Shape :=
  match s with
  | Node a cs => Node a cs :: flat_map subshapes cs
  end.

(** The pointers to the roots of the trees [cs]: the [child_] vector of a
    node whose subtrees they are. *)
Definition root_of (s : Shape) : addr :=
  match s with
  | Node a _ => a
  end.

Definition roots (cs : list Shape) : list shared_ptr :=
  map (fun s => Some (root_of s)) cs.

(** [repr h p s]: in the store [h], the pointer [p] is the root of a tree of
    the shape [s]; every [child_] vector holds the roots of the subtrees. *)
Inductive repr (h : gmap positive DatasetOp) : shared_ptr -> Shape -> Prop :=
  | repr_node a o cs :
      h !! a = Some o ->
      Forall2 (repr h) (child_ o) cs ->
      repr h (Some a) (Node a cs).

(** Whether some node of the tree [s] declares the prepare flag of bit [F]. *)
Definition declares {Ext : Type} {collaborators : Collaborators Ext}
    (s : Shape) (F : Z) : bool :=
  existsb (fun a => Z.testbit (PrepareFlags a) F) (postorder s).

(** Hooks that succeed and leave the operators and the mask alone. *)
Definition quiet_hook {Ext : Type} (f : addr -> World Ext -> Status * World Ext)
    : Prop :=
  forall a w,
    IsOk (fst (f a w)) = true /\
    ops (snd (f a w)) = ops w /\
    prepare_flags_ (tree (snd (f a w))) = prepare_flags_ (tree w).

(** The order of the lifecycle: Init, Building, Prepare, Ready, Executing. *)
Definition TreeState_le (s1 s2 : TreeState) : Prop :=
  TreeState_to_int s1 <= TreeState_to_int s2.

(** ** What [Launch] leaves behind *)

Definition op_label (o : DatasetOp) : string :=
  "Op launched, OperatorId:" +:+ to_string (operator_id_ o).

(** The tasks asked for on behalf of the operator at [a]: one when it is not
    inlined, none when it is. *)
Definition op_task (h : gmap positive DatasetOp) (a : addr) : list Task :=
  match h !! a with
  | Some o => if inlined o then [] else [mkTask (op_label o) (RunOp a)]
  | None => []
  end.

Definition op_tasks (h : gmap positive DatasetOp) (l : list addr) : list Task :=
  flat_map (op_task h) l.

(** The tasks of [g] that run the operator at [a]. *)
Definition tasks_of (a : addr) (g : list Task) : list Task :=
  List.filter (fun t => bool_decide (task_body t = RunOp a)) g.

Definition mark (a : addr) (h : gmap positive DatasetOp)
    : gmap positive DatasetOp :=
  match h !! a with
  | Some o => <[a := set_state kDeOpRunning o]> h
  | None => h
  end.

Definition mark_running (l : list addr) (h : gmap positive DatasetOp)
    : gmap positive DatasetOp :=
  fold_left (fun h a => mark a h) l h.

Definition monitor_task : Task := mkTask "Monitor Thread launched" RunMonitor.

(** What [Launch] asks of the profiling manager and of the task group
    before it walks the tree. *)
Definition profiling_tasks {Ext : Type} {collaborators : Collaborators Ext}
    (w : World Ext) : list Task :=
  if IsProfilingEnable (ext w) then [monitor_task] else [].

Definition profiling_ext {Ext : Type} {collaborators : Collaborators Ext}
    (w : World Ext) : Ext :=
  if IsProfilingEnable (ext w) then snd (ProfilingInitialize (ext w))
  else ext w.

(** ** The rest of the tree *)

(** *** The stacks of the prepare phase *)

Definition with_eoe_stack (st : list shared_ptr) (t : ExecutionTree)
    : ExecutionTree :=
  {| tree_state_ := tree_state_ t; id_count_ := id_count_ t; root_ := root_ t;
     prepare_flags_ := prepare_flags_ t; eoe_stack_ := st;
     sampler_stack_ := sampler_stack_ t; tg_ := tg_ t |}.

Definition with_sampler_stack (st : list shared_ptr) (t : ExecutionTree)
    : ExecutionTree :=
  {| tree_state_ := tree_state_ t; id_count_ := id_count_ t; root_ := root_ t;
     prepare_flags_ := prepare_flags_ t; eoe_stack_ := eoe_stack_ t;
     sampler_stack_ := st; tg_ := tg_ t |}.

(** [eoe_stack_.push(dataset_op)]: the top of the stack is the head of the
    list. *)
Definition AddToEOEOpStack (dataset_op : shared_ptr) (t : ExecutionTree)
    : ExecutionTree :=
  with_eoe_stack (dataset_op :: eoe_stack_ t) t.

(** The operator popped, or [nullptr] when the stack is empty. *)
Definition PopFromEOEOpStack (t : ExecutionTree) : shared_ptr * ExecutionTree :=
  let top_op := None in
  match eoe_stack_ t with
  | [] => (top_op, t)
  | top :: rest => (top, with_eoe_stack rest t)
  end.

Definition AddToSamplerStack (sampler : shared_ptr) (t : ExecutionTree)
    : ExecutionTree :=
  with_sampler_stack (sampler :: sampler_stack_ t) t.

Definition PopFromSamplerStack (t : ExecutionTree)
    : shared_ptr * ExecutionTree :=
  let top_sampler := None in
  match sampler_stack_ t with
  | [] => (top_sampler, t)
  | top :: rest => (top, with_sampler_stack rest t)
  end.

(** A caller that pops [n] times and collects what the pops return, first
    pop first. *)
Fixpoint pop_n (pop : ExecutionTree -> shared_ptr * ExecutionTree) (n : nat)
    (t : ExecutionTree) : list shared_ptr * ExecutionTree :=
  match n with
  | O => ([], t)
  | S n' =>
    let '(x, t') := pop t in
    let '(xs, t'') := pop_n pop n' t' in
    (x :: xs, t'')
  end.

(** *** Worker launch *)

Section Workers.

(** [LaunchWorkers] uses nothing of the tree but its task group, and hands
    it callables that [Launch] never makes ([std::bind(func, i)]); so the
    task group is taken here through its interface: a state [TG] and the
    answer of [CreateAsyncTask] to a name and a callable. *)
Context {TG Func Body : Type}.
Variable CreateTask : string -> Body -> TG -> Status * TG.
Variable bind : Func -> Z -> Body.

(** The loop [for (int32_t i = ...; i < num_workers; ++i)] with [count]
    iterations left. *)
Fixpoint LaunchWorkers_loop (count : nat) (i : Z) (func : Func) (tg : TG)
    : Status * TG :=
  match count with
  | O => (Status_OK, tg)
  | S count' =>
    let '(s, tg') := CreateTask "Parallel Op Worker" (bind func i) tg in
    if IsOk s then LaunchWorkers_loop count' (i + 1) func tg' else (s, tg')
  end.

Definition LaunchWorkers (num_workers : Z) (func : Func) (tg : TG)
    : Status * TG :=
  LaunchWorkers_loop (Z.to_nat num_workers) 0 func tg.

End Workers.

(** A task group that keeps the list of the tasks it accepted, oldest first,
    as [tg_] does; [answer] is its answer to a request. *)
Definition logging_CreateTask {Body : Type}
    (answer : list (string * Body) -> string * Body -> Status)
    (name : string) (f : Body) (tg : list (string * Body))
    : Status * list (string * Body) :=
  let s := answer tg (name, f) in
  if IsOk s then (s, tg ++ [(name, f)]) else (s, tg).

(** The tasks of the workers [i], [i + 1], ... ([n] of them). *)
Definition worker_tasks {Func Body : Type} (bind : Func -> Z -> Body)
    (func : Func) (i n : Z) : list (string * Body) :=
  map (fun j => ("Parallel Op Worker", bind func j)) (seqZ i n).

(** *** What the printer writes *)

Definition newline : string := String (Ascii.ascii_of_nat 10) "".

(** A loop over a vector whose body is told whether it is at the last
    element ([i == size - 1]). *)
Fixpoint for_each_last {A S : Type} (body : A -> bool -> S -> option S)
    (l : list A) (s : S) : option S :=
  match l with
  | [] => Some s
  | x :: l' =>
    match body x (match l' with [] => true | _ => false end) s with
    | None => None
    | Some s' => for_each_last body l' s'
    end
  end.

Section Printing.

(** What an operator writes of itself: [out << *dataset_op] and
    [dataset_op->Print(out, detailed)].  Both belong to the operator classes;
    here they are functions of the operator. *)
Variable op_summary : addr -> DatasetOp -> string.
Variable op_details : addr -> DatasetOp -> string.

(** [ExecutionTree::PrintNode] on the stream content [out]. *)
Fixpoint PrintNode_out (fuel : nat) (h : gmap positive DatasetOp)
    (dataset_op : shared_ptr) (indent : string) (last detailed : bool)
    (out : string) : option string :=
  match fuel with
  | O => None
  | S fuel' =>
    match dataset_op with
    | None => None
    | Some a =>
      match h !! a with
      | None => None
      | Some o =>
        (* Decide which printer to use based on detailed arg. *)
        let out1 :=
          if negb detailed
          then ((out +:+ indent) +:+ "+- ") +:+ op_summary a o
          else out +:+ op_details a o in
        let indent1 :=
          if negb detailed
          then indent +:+ (if last then "    " else "|   ")
          else indent in
        (* Descend to children *)
        for_each_last
          (fun c is_last out' =>
             PrintNode_out fuel' h c indent1 is_last detailed out')
          (child_ o) out1
      end
    end
  end.

(** [ExecutionTree::Print(out, op)]. *)
Definition Print_out {Ext : Type} (fuel : nat) (w : World Ext)
    (op : shared_ptr) (out : string) : option string :=
  let start := match op with None => root_ (tree w) | Some _ => op end in
  let out1 := (out +:+ ("Execution tree summary:" +:+ newline))
              +:+ ("-----------------------" +:+ newline) in
  match PrintNode_out fuel (ops w) start "" true false out1 with
  | None => None
  | Some out2 =>
    let out3 := (out2 +:+ (newline +:+ "Execution tree operator details:"
                             +:+ newline))
                +:+ ("--------------------------------" +:+ newline) in
    PrintNode_out fuel (ops w) start "" true true out3
  end.

(** What the operator at [a] of the store writes. *)
Definition written (f : addr -> DatasetOp -> string)
    (h : gmap positive DatasetOp) (a : addr) : string :=
  match h !! a with Some o => f a o | None => "" end.

End Printing.

(** The node, then the children's subtrees from left to right. *)
Fixpoint preorder (s : Shape) : list addr :=
  match s with
  | Node a cs => a :: flat_map preorder cs
  end.

(** The level of every node, in preorder; the root is at level [d]. *)
Fixpoint levels (d : nat) (s : Shape) : list nat :=
  match s with
  | Node _ cs => d :: flat_map (levels (S d)) cs
  end.

Section FlatMapLast.
Context {A B : Type}.
Variable f : A -> bool -> list B.

(** [flat_map] with a body that is told whether it is at the last
    element. *)
Fixpoint flat_map_last (l : list A) : list B :=
  match l with
  | [] => []
  | x :: l' => f x (match l' with [] => true | _ => false end) ++ flat_map_last l'
  end.

End FlatMapLast.

(** The lines of the summary of a tree: for every node, in preorder, the
    indentation and the node.  The children of a node are indented by four
    more columns: blanks below a last child, a bar and blanks otherwise. *)
Fixpoint outline (indent : string) (last : bool) (s : Shape)
    : list (string * addr) :=
  match s with
  | Node a cs =>
    (indent, a)
    :: flat_map_last
         (fun c is_last =>
            outline (indent +:+ (if last then "    " else "|   ")) is_last c)
         cs
  end.

Definition concat_strings (l : list string) : string :=
  fold_right String.append "" l.

(** A line of the summary. *)
Definition summary_line (op_summary : addr -> DatasetOp -> string)
    (h : gmap positive DatasetOp) (l : string * addr) : string :=
  (fst l +:+ "+- ") +:+ written op_summary h (snd l).

(** *** Identity of the operators *)

(** The operators of this tree carry ids that are not negative, below the
    counter, and pairwise different. *)
Definition ids_inv {Ext : Type} (this : tree_ptr) (w : World Ext) : Prop :=
  0 <= id_count_ (tree w) /\
  (forall a o, ops w !! a = Some o -> tree_ o = Some this ->
     0 <= operator_id_ o < id_count_ (tree w)) /\
  (forall a b oa ob,
     ops w !! a = Some oa -> ops w !! b = Some ob ->
     tree_ oa = Some this -> tree_ ob = Some this ->
     operator_id_ oa = operator_id_ ob -> a = b).

(** Whether the operator at [a] is in the store and not of this tree. *)
Definition is_new (this : tree_ptr) (h : gmap positive DatasetOp) (a : addr)
    : bool :=
  match h !! a with
  | Some o => bool_decide (tree_ o <> Some this)
  | None => false
  end.

(** The operators among [nodes] that are new to the tree. *)
Definition new_nodes (this : tree_ptr) (h : gmap positive DatasetOp)
    (nodes : list addr) : gset positive :=
  list_to_set (List.filter (is_new this h) nodes).

(** An operator but for its [state_]. *)
Definition same_but_state (o o' : DatasetOp) : Prop :=
  tree_ o' = tree_ o /\ operator_id_ o' = operator_id_ o /\
  child_ o' = child_ o /\ oc_queue_size_ o' = oc_queue_size_ o.

(** The store [h'] is the store [h] but for the [state_] of some operators,
    which has become Running. *)
Definition only_marked (h h' : gmap positive DatasetOp) : Prop :=
  forall a,
    (h !! a = None /\ h' !! a = None) \/
    (exists o o', h !! a = Some o /\ h' !! a = Some o' /\
       same_but_state o o' /\
       (state_ o' = state_ o \/ state_ o' = kDeOpRunning)).

(** Two trees that differ at most in the task group and the state. *)
Definition same_members (t t' : ExecutionTree) : Prop :=
  id_count_ t' = id_count_ t /\ root_ t' = root_ t /\
  prepare_flags_ t' = prepare_flags_ t /\ eoe_stack_ t' = eoe_stack_ t /\
  sampler_stack_ t' = sampler_stack_ t.

(** A builder's whole program: associate the operators [nodes], make
    [root] the root, prepare, launch; each step only if the one before
    succeeded. *)
Definition build_and_launch {Ext : Type} {collaborators : Collaborators Ext}
    (fuel : nat) (this : tree_ptr) (nodes : list addr) (root : addr)
    : Exec Ext :=
  RETURN_IF_NOT_OK AssociateNodes this nodes ;;
  RETURN_IF_NOT_OK AssignRoot this root ;;
  RETURN_IF_NOT_OK Prepare fuel this ;;
  Launch fuel this.

(** Hooks that succeed and leave alone the operators and, of the tree, all
    but the two stacks. *)
Definition stack_only_hook {Ext : Type}
    (f : addr -> World Ext -> Status * World Ext) : Prop :=
  forall a w,
    IsOk (fst (f a w)) = true /\
    ops (snd (f a w)) = ops w /\
    tree_state_ (tree (snd (f a w))) = tree_state_ (tree w) /\
    id_count_ (tree (snd (f a w))) = id_count_ (tree w) /\
    root_ (tree (snd (f a w))) = root_ (tree w) /\
    prepare_flags_ (tree (snd (f a w))) = prepare_flags_ (tree w) /\
    tg_ (tree (snd (f a w))) = tg_ (tree w).

(** An operator without the null pointers of its [child_] vector. *)
Definition without_null_children (o : DatasetOp) : DatasetOp :=
  {| tree_ := tree_ o; operator_id_ := operator_id_ o; state_ := state_ o;
     child_ := List.filter (fun p : shared_ptr =>
                              match p with Some _ => true | None => false end)
                 (child_ o);
     oc_queue_size_ := oc_queue_size_ o |}.

(** ** Examples *)

Module Example.

Definition this : tree_ptr := 100%positive.

(** An operator as its constructor leaves it. *)
Definition new_op (cs : list shared_ptr) (oc_queue_size : Z) : DatasetOp :=
  {| tree_ := None; operator_id_ := kInvalidOperatorId; state_ := kDeOpIdle;
     child_ := cs; oc_queue_size_ := oc_queue_size |}.

(** The root [R] has the children [A] and [B], and [A] has the child [C]. *)
Definition R : addr := 1%positive.
Definition A : addr := 2%positive.
Definition B : addr := 3%positive.
Definition C : addr := 4%positive.

Definition store4 : gmap positive DatasetOp :=
  <[R := new_op [Some A; Some B] 0]>
    (<[A := new_op [Some C] 16]>
       (<[B := new_op [] 16]>
          (<[C := new_op [] 16]> ∅))).

Definition shape4 : Shape := Node R [Node A [Node C []]; Node B []].

(** A tree of three levels: [Top] over [Mid] over [Leaf]; [Mid] is
    inlined. *)
Definition Top : addr := 10%positive.
Definition Mid : addr := 11%positive.
Definition Leaf : addr := 12%positive.

Definition store3 : gmap positive DatasetOp :=
  <[Top := new_op [Some Mid] 16]>
    (<[Mid := new_op [Some Leaf] 0]>
       (<[Leaf := new_op [] 16]> ∅)).

Definition shape3 : Shape := Node Top [Node Mid [Node Leaf []]].

Definition world3 : World unit :=
  {| tree := ExecutionTree_new; ops := store3; ext := tt |}.

(** Collaborators that always succeed and change nothing; profiling is
    off and no operator declares a prepare flag. *)
Definition quiet : Collaborators unit :=
  {| tg_admit := fun _ _ => Status_OK;
     IsProfilingEnable := fun _ => false;
     ProfilingInitialize := fun e => (Status_OK, e);
     RemovalPass := fun _ modified w => (Status_OK, modified, w);
     PrepareNodePreAction := fun _ w => (Status_OK, w);
     PrepareNodePostAction := fun _ w => (Status_OK, w);
     PrepareFlags := fun _ => kDePrepNone |}.

(** The same, with a task group that refuses every task. *)
Definition spawn_failure : Status :=
  mkStatus (kCollaboratorError 1) "Thread create failed".

Definition refusing : Collaborators unit :=
  {| tg_admit := fun _ _ => spawn_failure;
     IsProfilingEnable := fun _ => false;
     ProfilingInitialize := fun e => (Status_OK, e);
     RemovalPass := fun _ modified w => (Status_OK, modified, w);
     PrepareNodePreAction := fun _ w => (Status_OK, w);
     PrepareNodePostAction := fun _ w => (Status_OK, w);
     PrepareFlags := fun _ => kDePrepNone |}.

(** [store3] after [Leaf], [Mid] and [Top] were associated in this
    order. *)
Definition built_op (id : Z) (st : OpState) (cs : list shared_ptr)
    (oc_queue_size : Z) : DatasetOp :=
  {| tree_ := Some this; operator_id_ := id; state_ := st;
     child_ := cs; oc_queue_size_ := oc_queue_size |}.

Definition store3_built : gmap positive DatasetOp :=
  <[Top := built_op 2 kDeOpIdle [Some Mid] 16]>
    (<[Mid := built_op 1 kDeOpIdle [Some Leaf] 0]>
       (<[Leaf := built_op 0 kDeOpIdle [] 16]> ∅)).

Definition tree3 (st : TreeState) (g : list Task) : ExecutionTree :=
  {| tree_state_ := st; id_count_ := 3; root_ := Some Top;
     prepare_flags_ := kDePrepNone; eoe_stack_ := []; sampler_stack_ := [];
     tg_ := g |}.

(** The tree after [AssignRoot]: Building. *)
Definition built3 : World unit :=
  {| tree := tree3 kDeTStateBuilding []; ops := store3_built; ext := tt |}.

(** The tree after [Prepare]: Ready. *)
Definition ready3 : World unit :=
  {| tree := tree3 kDeTStateReady []; ops := store3_built; ext := tt |}.

(** The tree after [Launch]: Executing, every node Running, one task for
    [Leaf] and one for [Top]. *)
Definition store3_running : gmap positive DatasetOp :=
  <[Top := built_op 2 kDeOpRunning [Some Mid] 16]>
    (<[Mid := built_op 1 kDeOpRunning [Some Leaf] 0]>
       (<[Leaf := built_op 0 kDeOpRunning [] 16]> ∅)).

Definition tasks3 : list Task :=
  [mkTask "Op launched, OperatorId:0" (RunOp Leaf);
   mkTask "Op launched, OperatorId:2" (RunOp Top)].

Definition executing3 : World unit :=
  {| tree := tree3 kDeTStateExecuting tasks3; ops := store3_running;
     ext := tt |}.

(** The tree after [Prepare] was called once more, on the Executing tree:
    Ready again. *)
Definition ready_again3 : World unit :=
  {| tree := tree3 kDeTStateReady tasks3; ops := store3_running; ext := tt |}.

(** And after [Launch] was called once more. *)
Definition executing_again3 : World unit :=
  {| tree := tree3 kDeTStateExecuting (tasks3 ++ tasks3);
     ops := store3_running; ext := tt |}.

(** Collaborators whose removal pass fails (and leaves the world alone). *)
Definition pass_failure : Status :=
  mkStatus (kCollaboratorError 2) "RemovalPass failed".

Definition failing_pass : Collaborators unit :=
  {| tg_admit := fun _ _ => Status_OK;
     IsProfilingEnable := fun _ => false;
     ProfilingInitialize := fun e => (Status_OK, e);
     RemovalPass := fun _ modified w => (pass_failure, modified, w);
     PrepareNodePreAction := fun _ w => (Status_OK, w);
     PrepareNodePostAction := fun _ w => (Status_OK, w);
     PrepareFlags := fun _ => kDePrepNone |}.

(** A node [X] with the child [Y]; both declare the prepare flag of bit 0.
    The collaborator state is a log: the post-action hook of a node notes
    the value of [prepare_flags_] that it sees. *)
Definition X : addr := 20%positive.
Definition Y : addr := 21%positive.

Definition storeXY : gmap positive DatasetOp :=
  <[X := new_op [Some Y] 16]> (<[Y := new_op [] 16]> ∅).

Definition worldXY : World (list Z) :=
  {| tree := ExecutionTree_new; ops := storeXY; ext := [] |}.

Definition observing : Collaborators (list Z) :=
  {| tg_admit := fun _ _ => Status_OK;
     IsProfilingEnable := fun _ => false;
     ProfilingInitialize := fun e => (Status_OK, e);
     RemovalPass := fun _ modified w => (Status_OK, modified, w);
     PrepareNodePreAction := fun _ w => (Status_OK, w);
     PrepareNodePostAction := fun _ w =>
       (Status_OK,
        {| tree := tree w; ops := ops w;
           ext := ext w ++ [prepare_flags_ (tree w)] |});
     PrepareFlags := fun _ => 1 |}.

(** The same tree and hooks; [X] declares the bits 0 and 1, [Y] the
    bit 0. *)
Definition observing_masks : Collaborators (list Z) :=
  {| tg_admit := fun _ _ => Status_OK;
     IsProfilingEnable := fun _ => false;
     ProfilingInitialize := fun e => (Status_OK, e);
     RemovalPass := fun _ modified w => (Status_OK, modified, w);
     PrepareNodePreAction := fun _ w => (Status_OK, w);
     PrepareNodePostAction := fun _ w =>
       (Status_OK,
        {| tree := tree w; ops := ops w;
           ext := ext w ++ [prepare_flags_ (tree w)] |});
     PrepareFlags := fun a => if decide (a = X) then 3 else 1 |}.

End Example.

(** ** More examples *)

Module Example2.

(** A task group of workers that accepts every worker, and one that refuses
    the worker of index 1.  The callable of a worker is its index. *)
Definition accept_all (g : list (string * Z)) (t : string * Z) : Status :=
  Status_OK.

Definition refuse_one (g : list (string * Z)) (t : string * Z) : Status :=
  if snd t =? 1 then Example.spawn_failure else Status_OK.

Definition index_of (func : unit) (i : Z) : Z := i.

(** Operators that write their address. *)
Definition show_addr (a : addr) (o : DatasetOp) : string :=
  "<" +:+ pretty (Zpos a) +:+ ">".

(** The store of the tree of three levels, nothing associated yet, under a
    tree that is already Ready, already Building, or in state Prepare. *)
Definition late3 : World unit :=
  {| tree := Example.tree3 kDeTStateReady []; ops := Example.store3;
     ext := tt |}.

Definition building3 : World unit :=
  {| tree := with_tree_state kDeTStateBuilding ExecutionTree_new;
     ops := Example.store3; ext := tt |}.


(** Collaborators with profiling enabled and a profiling manager that fails
    to initialize. *)
Definition profiling_failure : Status :=
  mkStatus (kCollaboratorError 3) "Profiling init failed".

Definition profiling_fails : Collaborators unit :=
  {| tg_admit := fun _ _ => Status_OK;
     IsProfilingEnable := fun _ => true;
     ProfilingInitialize := fun e => (profiling_failure, e);
     RemovalPass := fun _ modified w => (Status_OK, modified, w);
     PrepareNodePreAction := fun _ w => (Status_OK, w);
     PrepareNodePostAction := fun _ w => (Status_OK, w);
     PrepareFlags := fun _ => kDePrepNone |}.

(** Collaborators whose task group refuses the task of [Top] only. *)
Definition refusing_top : Collaborators unit :=
  {| tg_admit := fun _ t =>
       if bool_decide (task_body t = RunOp Example.Top)
       then Example.spawn_failure else Status_OK;
     IsProfilingEnable := fun _ => false;
     ProfilingInitialize := fun e => (Status_OK, e);
     RemovalPass := fun _ modified w => (Status_OK, modified, w);
     PrepareNodePreAction := fun _ w => (Status_OK, w);
     PrepareNodePostAction := fun _ w => (Status_OK, w);
     PrepareFlags := fun _ => kDePrepNone |}.

(** The store of the tree of three levels, with a null pointer before and
    after the child of [Top]. *)
Definition store3_null : gmap positive DatasetOp :=
  <[Example.Top := Example.new_op [None; Some Example.Mid; None] 16]>
    Example.store3.

End Example2.

Section Properties.

Context {Ext : Type} {collaborators : Collaborators Ext}.
Implicit Types (w : World Ext) (this : tree_ptr) (op a : addr).

(** *** Association *)

Lemma int32_wrap_id z : int32_min <= z <= int32_max -> int32_wrap z = z.
Proof.
  unfold int32_min, int32_max, int32_wrap. intros Hz.
  rewrite Z.mod_small; lia.
Qed.

Lemma int32_wrap_max : int32_wrap (int32_max + 1) = int32_min.
Proof. reflexivity. Qed.

Lemma AssociateNode_new_wrap this op w o :
  ops w !! op = Some o ->
  tree_ o <> Some this ->
  tree_state_ (tree w) = kDeTStateInit
    \/ tree_state_ (tree w) = kDeTStateBuilding ->
  AssociateNode this op w =
    Some (Status_OK,
          {| tree := with_id_count (int32_wrap (id_count_ (tree w) + 1))
                       (with_tree_state kDeTStateBuilding (tree w));
             ops := <[op := associated this (id_count_ (tree w)) o]> (ops w);
             ext := ext w |}).
Proof.
  intros Hop Hnew Hst. unfold AssociateNode. rewrite Hop.
  destruct (decide (tree_ o = Some this)) as [E|_]; [contradiction|].
  destruct (decide _) as [[H1 H2]|_]; [destruct Hst; contradiction|].
  reflexivity.
Qed.

(** Below the largest counter value the increment does not wrap. *)
Lemma AssociateNode_new this op w o :
  ops w !! op = Some o ->
  tree_ o <> Some this ->
  tree_state_ (tree w) = kDeTStateInit
    \/ tree_state_ (tree w) = kDeTStateBuilding ->
  int32_min <= id_count_ (tree w) < int32_max ->
  AssociateNode this op w =
    Some (Status_OK,
          {| tree := with_id_count (id_count_ (tree w) + 1)
                       (with_tree_state kDeTStateBuilding (tree w));
             ops := <[op := associated this (id_count_ (tree w)) o]> (ops w);
             ext := ext w |}).
Proof.
  intros Hop Hnew Hst Hc.
  rewrite (AssociateNode_new_wrap this op w o Hop Hnew Hst).
  by rewrite int32_wrap_id by lia.
Qed.

(** C9.  [AssociateNode] on an operator whose back-reference already is
    this tree succeeds and changes nothing: the world after the call is
    the world before it, so the id and the back-reference of the operator,
    the tree state and the id counter are what they were. *)
Theorem AssociateNode_idempotent this op w o :
  ops w !! op = Some o ->
  tree_ o = Some this ->
  AssociateNode this op w = Some (Status_OK, w).
Proof.
  intros Hop Ht. unfold AssociateNode. rewrite Hop.
  destruct (decide (tree_ o = Some this)); [reflexivity | contradiction].
Qed.

(** C1.  A tree just constructed has the counter 0 and the state Init.
    Each call of [AssociateNode] on a tree in state Init or Building, for an
    operator that is not yet of this tree, succeeds, gives the operator the
    current value of the counter as its id and this tree as its
    back-reference, leaves the tree Building and touches no other operator;
    it adds one to the counter as long as the counter is below the largest
    32-bit value.  So when a builder associates the distinct operators
    [nodes], none of them yet of this tree, with a tree whose counter is
    [c], and [c + length nodes] does not exceed the largest 32-bit value,
    every call succeeds, the operator at position [i] of the sequence gets
    the id [c + i], and the counter ends at [c + length nodes]: from a tree
    just constructed the ids are 0, 1, 2, ... in call order. *)
Theorem AssociateNode_ids_sequential this :
  (id_count_ ExecutionTree_new = 0
   /\ tree_state_ ExecutionTree_new = kDeTStateInit) /\
  (forall w op o,
     tree_state_ (tree w) = kDeTStateInit
       \/ tree_state_ (tree w) = kDeTStateBuilding ->
     ops w !! op = Some o ->
     tree_ o <> Some this ->
     exists w',
       AssociateNode this op w = Some (Status_OK, w') /\
       ops w' !! op = Some (associated this (id_count_ (tree w)) o) /\
       id_count_ (tree w') = int32_wrap (id_count_ (tree w) + 1) /\
       (int32_min <= id_count_ (tree w) < int32_max ->
          id_count_ (tree w') = id_count_ (tree w) + 1) /\
       tree_state_ (tree w') = kDeTStateBuilding /\
       (forall b, b <> op -> ops w' !! b = ops w !! b)) /\
  (forall w nodes,
     tree_state_ (tree w) = kDeTStateInit
       \/ tree_state_ (tree w) = kDeTStateBuilding ->
     NoDup nodes ->
     (forall a, a ∈ nodes ->
        exists o, ops w !! a = Some o /\ tree_ o <> Some this) ->
     int32_min <= id_count_ (tree w) ->
     id_count_ (tree w) + Z.of_nat (length nodes) <= int32_max ->
     exists w',
       AssociateNodes this nodes w = Some (Status_OK, w') /\
       id_count_ (tree w') = id_count_ (tree w) + Z.of_nat (length nodes) /\
       (forall (i : nat) a, nodes !! i = Some a ->
          exists o, ops w !! a = Some o /\
            ops w' !! a
              = Some (associated this (id_count_ (tree w) + Z.of_nat i) o)) /\
       (nodes <> [] -> tree_state_ (tree w') = kDeTStateBuilding) /\
       (nodes = [] -> w' = w) /\
       (forall a, a ∉ nodes -> ops w' !! a = ops w !! a)).
Proof.
  split; [split; reflexivity|]. split.
  { intros w op o Hst Ho Hnew. eexists.
    split; [exact (AssociateNode_new_wrap this op w o Ho Hnew Hst)|].
    cbn [tree ops id_count_ with_id_count with_tree_state tree_state_].
    split; [apply lookup_insert_eq|]. split; [reflexivity|].
    split; [intros Hc; apply int32_wrap_id; lia|].
    split; [reflexivity|]. intros b Hb. by apply lookup_insert_ne. }
  intros w nodes Hst Hnd Hall.
  revert w Hst Hall.
  induction Hnd as [|a l Hnotin Hnd IH]; intros w Hst Hall Hlo Hhi.
  - exists w. cbn. repeat split; try done; lia.
  - destruct (Hall a) as (o & Ho & Hnew); [left|].
    cbn [length] in Hhi.
    assert (Hc : int32_min <= id_count_ (tree w) < int32_max) by lia.
    pose proof (AssociateNode_new this a w o Ho Hnew Hst Hc) as Hstep.
    set (w1 := {| tree := with_id_count (id_count_ (tree w) + 1)
                            (with_tree_state kDeTStateBuilding (tree w));
                  ops := <[a := associated this (id_count_ (tree w)) o]> (ops w);
                  ext := ext w |}) in *.
    assert (Hother : forall b, b <> a -> ops w1 !! b = ops w !! b).
    { intros b Hb. cbn. apply lookup_insert_ne. congruence. }
    destruct (IH w1) as (w' & Hrun & Hcnt & Hids & Hbuild & _ & Hframe).
    { right. reflexivity. }
    { intros b Hb. destruct (Hall b) as (ob & Hob & Hnb); [right; exact Hb|].
      exists ob. split; [|exact Hnb]. rewrite Hother; [exact Hob|].
      intros ->. contradiction. }
    { cbn [w1 tree id_count_ with_id_count]. lia. }
    { cbn [w1 tree id_count_ with_id_count]. lia. }
    exists w'. split; [|split; [|split; [|split; [|split]]]].
    + unfold AssociateNodes in *. cbn [for_each_ok]. unfold and_then at 1.
      rewrite Hstep. cbn. exact Hrun.
    + rewrite Hcnt. cbn [w1 tree id_count_ with_id_count length]. lia.
    + intros [|i] b Hi; cbn in Hi.
      * injection Hi as <-. exists o. split; [exact Ho|].
        rewrite (Hframe a Hnotin). cbn. rewrite lookup_insert_eq.
        do 2 f_equal. lia.
      * assert (Hb : b ∈ l) by (apply list_elem_of_lookup; eauto).
        destruct (Hids i b Hi) as (ob & Hob & Hres).
        assert (b <> a) by (intros ->; contradiction).
        exists ob. split; [rewrite <- Hother by assumption; exact Hob|].
        rewrite Hres. do 2 f_equal. cbn [w1 tree id_count_ with_id_count]. lia.
    + intros _. destruct l as [|b l'].
      * cbn in Hrun. injection Hrun as <-. reflexivity.
      * apply Hbuild. discriminate.
    + discriminate.
    + intros b Hb. rewrite not_elem_of_cons in Hb. destruct Hb as [Hba Hbl].
      rewrite (Hframe b Hbl). apply Hother. exact Hba.
Qed.

(** *** Root assignment *)

(** C7.  [AssignRoot] on a tree that is not Building fails with the
    unexpected-status failure whose message gives the observed state and
    the expected state Building, and the world (the root, the operators
    with their ids and back-references) is left as it was.  The four
    states other than Building are Init, Prepare, Ready and Executing. *)
Theorem AssignRoot_invalid_state this op w :
  tree_state_ (tree w) <> kDeTStateBuilding ->
  (tree_state_ (tree w) = kDeTStateInit
   \/ tree_state_ (tree w) = kDeTStatePrepare
   \/ tree_state_ (tree w) = kDeTStateReady
   \/ tree_state_ (tree w) = kDeTStateExecuting) /\
  exists s,
    AssignRoot this op w = Some (s, w) /\
    IsOk s = false /\
    InvalidState "assigning a root node" (tree_state_ (tree w))
      (" Expected state: " +:+ to_string (TreeState_to_int kDeTStateBuilding)) s.
Proof.
  intros Hst. split.
  { destruct (tree_state_ (tree w)); auto; contradiction. }
  unfold AssignRoot. destruct (decide _) as [_|H]; [|contradiction].
  eexists. split; [reflexivity|]. split; [reflexivity|].
  split; reflexivity.
Qed.

(** *** The postorder iterator *)

Lemma Shape_ind' (P : Shape -> Prop) :
  (forall a cs, Forall P cs -> P (Node a cs)) -> forall s, P s.
Proof.
  intros step. fix IH 1. intros [a cs]. apply step.
  induction cs as [|c cs IHcs]; constructor; [apply IH | exact IHcs].
Qed.

Lemma height_child_le (c : Shape) cs (fuel : nat) :
  (max_list (map height (c :: cs)) <= fuel)%nat ->
  (height c <= fuel)%nat /\ (max_list (map height cs) <= fuel)%nat.
Proof. simpl. lia. Qed.

Lemma PostOrderTraverse_children h (fuel : nat) cs :
  Forall (fun s => forall p acc, repr h p s -> (height s <= fuel)%nat ->
            PostOrderTraverse fuel h p acc
              = Some (acc ++ map Some (postorder s))) cs ->
  forall ps acc,
    Forall2 (repr h) ps cs ->
    (max_list (map height cs) <= fuel)%nat ->
    for_each (PostOrderTraverse fuel h) ps acc
      = Some (acc ++ map Some (flat_map postorder cs)).
Proof.
  induction 1 as [|c cs Hc _ IH]; intros ps acc Hrep Hfuel.
  - inversion Hrep; subst. cbn. by rewrite app_nil_r.
  - inversion Hrep as [|p c' ps' cs' Hp Hps]; subst.
    apply height_child_le in Hfuel as [Hh Hm].
    cbn [for_each flat_map]. rewrite (Hc p acc Hp Hh).
    rewrite (IH ps' _ Hps Hm). by rewrite map_app, app_assoc.
Qed.

Lemma PostOrderTraverse_repr h p acc (fuel : nat) s :
  repr h p s -> (height s <= fuel)%nat ->
  PostOrderTraverse fuel h p acc = Some (acc ++ map Some (postorder s)).
Proof.
  revert fuel p acc. induction s as [a cs IH] using Shape_ind'.
  intros fuel p acc Hrep Hfuel. inversion Hrep as [a' o cs' Ho Hcs]; subst.
  destruct fuel as [|fuel]; [cbn [height] in Hfuel; lia|].
  cbn [height] in Hfuel. apply le_S_n in Hfuel.
  cbn [PostOrderTraverse]. rewrite Ho.
  rewrite (PostOrderTraverse_children h fuel cs) with (acc := acc); trivial.
  - cbn [postorder]. by rewrite map_app, app_assoc.
  - eapply Forall_impl; [exact IH|]. cbn. intros s Hs p acc' Hr Hl.
    by apply Hs.
Qed.

Lemma postorder_subshape s t :
  t ∈ subshapes s -> exists l1 l2, postorder s = l1 ++ postorder t ++ l2.
Proof.
  revert t. induction s as [a cs IH] using Shape_ind'. intros t Ht.
  cbn [subshapes] in Ht. apply elem_of_cons in Ht as [->|Ht].
  - exists [], []. by rewrite app_nil_r.
  - cbn [postorder]. induction IH as [|c cs Hc _ IHcs]; cbn in Ht.
    + by apply elem_of_nil in Ht.
    + apply elem_of_app in Ht as [Ht|Ht].
      * destruct (Hc t Ht) as (l1 & l2 & E).
        exists l1, (l2 ++ flat_map postorder cs ++ [a]).
        cbn [flat_map]. rewrite E. by rewrite <- !app_assoc.
      * destruct (IHcs Ht) as (l1 & l2 & E).
        exists (postorder c ++ l1), l2.
        cbn [flat_map]. rewrite <- !app_assoc. f_equal.
        rewrite app_assoc in E. rewrite <- app_assoc in E. exact E.
Qed.

(** C10.  [PostOrderTraverse] on a null node returns at once and adds
    nothing; the iterator built from a null root holds the end marker and
    nothing else, whatever the store and the fuel; so [begin] on a tree
    without root is at the end, and a loop over it runs no iteration. *)
Theorem Iterator_null_root (fuel : nat) (h : gmap positive DatasetOp) w :
  (forall nodes_, PostOrderTraverse fuel h None nodes_ = Some nodes_) /\
  Iterator fuel h None = Some [None] /\
  begin fuel (with_tree (with_root None (tree w)) w) = Some [None] /\
  Launch_loop [None] w = Some (Status_OK, w).
Proof.
  repeat split; destruct fuel; reflexivity.
Qed.

(** C3.  When the store holds a tree of shape [s] under [root], the
    iterator built from [root] (with fuel for the levels of the tree)
    holds the postorder of [s] and then the end marker, which occurs
    nowhere before; for every node of the tree, the subtrees of its
    children, from left to right, come as one block right before the node;
    and the tree of [R] over [A; B] with [C] under [A] is visited as
    [C, A, B, R]. *)
Theorem Iterator_postorder h root s (fuel : nat) :
  repr h root s ->
  (height s <= fuel)%nat ->
  Iterator fuel h root = Some (map Some (postorder s) ++ [None]) /\
  (None ∉ map Some (postorder s)) /\
  (forall a cs, Node a cs ∈ subshapes s ->
     exists l1 l2,
       postorder s = l1 ++ (flat_map postorder cs ++ [a]) ++ l2) /\
  (forall r a b c : addr,
     postorder (Node r [Node a [Node c []]; Node b []]) = [c; a; b; r]).
Proof.
  intros Hrep Hfuel. split; [|split; [|split]].
  - unfold Iterator.
    by rewrite (PostOrderTraverse_repr h root [] fuel s Hrep Hfuel).
  - intros Hin. apply list_elem_of_In, in_map_iff in Hin as (x & Hx & _).
    discriminate.
  - intros a cs Hin. exact (postorder_subshape s (Node a cs) Hin).
  - reflexivity.
Qed.

(** *** Launch *)

Lemma repr_lookup h p s :
  repr h p s -> forall a, a ∈ postorder s -> is_Some (h !! a).
Proof.
  revert p. induction s as [a cs IH] using Shape_ind'.
  intros p Hrep b Hb. inversion Hrep as [a' o cs' Ho Hcs]; subst.
  cbn [postorder] in Hb. apply elem_of_app in Hb as [Hb|Hb].
  - clear Ho Hrep. revert Hb. generalize (child_ o) Hcs. clear Hcs.
    induction IH as [|c cs Hc _ IHcs]; intros ps Hps Hb; cbn in Hb.
    + by apply elem_of_nil in Hb.
    + inversion Hps as [|q c' qs cs' Hq Hqs]; subst.
      apply elem_of_app in Hb as [Hb|Hb]; [by eapply Hc | by eapply IHcs].
  - apply list_elem_of_singleton in Hb as ->. by exists o.
Qed.

Lemma PrintNode_repr h p s (fuel : nat) :
  repr h p s -> (height s <= fuel)%nat -> PrintNode fuel h p = Some tt.
Proof.
  revert fuel p. induction s as [a cs IH] using Shape_ind'.
  intros fuel p Hrep Hfuel. inversion Hrep as [a' o cs' Ho Hcs]; subst.
  destruct fuel as [|fuel]; [cbn [height] in Hfuel; lia|].
  cbn [height] in Hfuel. apply le_S_n in Hfuel.
  cbn [PrintNode]. rewrite Ho. clear Ho Hrep.
  revert Hfuel. generalize (child_ o) Hcs. clear Hcs.
  induction IH as [|c cs Hc _ IHcs]; intros ps Hps Hfuel.
  - inversion Hps; subst. reflexivity.
  - inversion Hps as [|q c' qs cs' Hq Hqs]; subst.
    apply height_child_le in Hfuel as [Hh Hm].
    cbn [for_each]. rewrite (Hc fuel q Hq Hh). by apply IHcs.
Qed.

Lemma op_task_mark h a b : op_task (mark a h) b = op_task h b.
Proof.
  unfold mark. destruct (h !! a) as [o|] eqn:Ha; [|reflexivity].
  unfold op_task. destruct (decide (a = b)) as [->|Hne].
  - by rewrite lookup_insert_eq, Ha.
  - by rewrite lookup_insert_ne.
Qed.

Lemma op_tasks_mark h a l : op_tasks (mark a h) l = op_tasks h l.
Proof.
  unfold op_tasks. induction l as [|b l IH]; [reflexivity|].
  cbn [flat_map]. by rewrite op_task_mark, IH.
Qed.

Lemma is_Some_mark h a b : is_Some (h !! b) -> is_Some (mark a h !! b).
Proof.
  unfold mark. destruct (h !! a) as [o|] eqn:Ha; [|done].
  destruct (decide (a = b)) as [->|Hne].
  - rewrite lookup_insert_eq. by eexists.
  - by rewrite lookup_insert_ne.
Qed.

Lemma lookup_mark_running l : forall h a,
  mark_running l h !! a
    = if decide (a ∈ l) then set_state kDeOpRunning <$> h !! a else h !! a.
Proof.
  induction l as [|b l IH]; intros h a.
  - cbn. destruct (decide _) as [H|_]; [by apply elem_of_nil in H | done].
  - cbn [mark_running fold_left]. fold (mark_running l (mark b h)).
    rewrite IH. unfold mark.
    destruct (decide (a = b)) as [->|Hne].
    + destruct (decide (b ∈ b :: l)) as [_|Hn]; [|exfalso; apply Hn; left].
      destruct (h !! b) as [o|] eqn:Hb.
      * rewrite lookup_insert_eq. by destruct (decide _).
      * rewrite Hb. by destruct (decide _).
    + assert (Hl : mark b h !! a = h !! a).
      { unfold mark. destruct (h !! b); [by rewrite lookup_insert_ne | done]. }
      unfold mark in Hl. rewrite Hl.
      destruct (decide (a ∈ l)) as [Hin|Hnin].
      * destruct (decide (a ∈ b :: l)) as [_|Hn]; [done|].
        exfalso. apply Hn. by right.
      * destruct (decide (a ∈ b :: l)) as [Hin|_]; [|done].
        apply elem_of_cons in Hin as [?|?]; done.
Qed.

Lemma tasks_of_op_task h a b :
  tasks_of a (op_task h b) = if decide (a = b) then op_task h b else [].
Proof.
  unfold op_task, tasks_of. destruct (h !! b) as [o|]; [|by destruct (decide _)].
  destruct (inlined o); [by destruct (decide _)|].
  cbn [List.filter task_body].
  destruct (decide (a = b)) as [->|Hne].
  - by rewrite bool_decide_eq_true_2.
  - rewrite bool_decide_eq_false_2; [done|]. intros [= ->]. done.
Qed.

Lemma tasks_of_op_tasks_notin h a l :
  a ∉ l -> tasks_of a (op_tasks h l) = [].
Proof.
  unfold op_tasks, tasks_of. induction l as [|b l IH]; intros Hn; [done|].
  apply not_elem_of_cons in Hn as [Hne Hn]. cbn [flat_map].
  rewrite List.filter_app. fold (tasks_of a (op_task h b)).
  rewrite tasks_of_op_task. destruct (decide _); [done|]. by apply IH.
Qed.

(** Among the tasks of the nodes [l], all different, the node [a] of [l] has
    one task when it is not inlined and none when it is. *)
Lemma tasks_of_op_tasks h a l o :
  NoDup l -> a ∈ l -> h !! a = Some o ->
  tasks_of a (op_tasks h l)
    = if inlined o then [] else [mkTask (op_label o) (RunOp a)].
Proof.
  intros Hnd. induction Hnd as [|b l Hb Hnd IH]; intros Hin Ho.
  - by apply elem_of_nil in Hin.
  - unfold op_tasks, tasks_of. cbn [flat_map]. rewrite List.filter_app.
    fold (tasks_of a (op_task h b)). fold (op_tasks h l).
    fold (tasks_of a (op_tasks h l)). rewrite tasks_of_op_task.
    destruct (decide (a = b)) as [->|Hne].
    + rewrite (tasks_of_op_tasks_notin _ _ _ Hb), app_nil_r.
      unfold op_task. by rewrite Ho.
    + apply elem_of_cons in Hin as [?|Hin]; [done|]. by apply IH.
Qed.

(** The loop of [Launch] over the nodes [l] and the end marker, when the
    task group accepts every task. *)
Lemma Launch_loop_all l :
  (forall g t, IsOk (tg_admit g t) = true) ->
  forall w,
    (forall a, a ∈ l -> is_Some (ops w !! a)) ->
    Launch_loop (map Some l ++ [None]) w =
      Some (Status_OK,
            {| tree := with_tg (tg_ (tree w) ++ op_tasks (ops w) l) (tree w);
               ops := mark_running l (ops w);
               ext := ext w |}).
Proof.
  intros Hadmit. induction l as [|a l IH]; intros w Hall.
  - cbn. unfold RETURN. destruct w as [[] ? ?]. cbn. by rewrite app_nil_r.
  - destruct (Hall a) as [o Ho]; [left|].
    cbn [map app Launch_loop]. rewrite Ho.
    assert (Hm : <[a := set_state kDeOpRunning o]> (ops w) = mark a (ops w)).
    { unfold mark. by rewrite Ho. }
    assert (Hall' : forall b, b ∈ l -> is_Some (mark a (ops w) !! b)).
    { intros b Hb. apply is_Some_mark, Hall. by right. }
    rewrite Hm. unfold op_tasks at 1. cbn [flat_map]. fold (op_tasks (ops w) l).
    unfold op_task at 1. rewrite Ho.
    destruct (inlined o); cbn [negb].
    + rewrite IH by exact Hall'. cbn [with_ops tree ops ext].
      by rewrite op_tasks_mark.
    + unfold and_then, CreateAsyncTask. rewrite Hadmit.
      rewrite IH by exact Hall'. rewrite Hadmit.
      unfold with_tree, with_ops, with_tg.
      cbn [tree ops ext tg_ tree_state_ id_count_
           root_ prepare_flags_ eoe_stack_ sampler_stack_].
      rewrite op_tasks_mark. unfold op_label. by rewrite <- app_assoc.
Qed.

(** C2, as the code has it.  On a tree in state Ready whose store holds a
    tree of shape [s] under the root, and when the collaborators do not
    fail (the task group accepts every task, and the profiling manager,
    if enabled, initializes), [Launch] succeeds; every node of the tree is
    Running afterwards and nothing else of the operators has changed; the
    task group has received, after the monitor task if profiling is
    enabled, the tasks of the nodes in postorder; when no operator occurs
    twice in the tree, these are exactly one task for each node that is not
    inlined, labelled with its id, and none for an inlined node; and the
    tree is Executing. *)
Theorem Launch_ready (fuel : nat) this w s :
  tree_state_ (tree w) = kDeTStateReady ->
  repr (ops w) (root_ (tree w)) s ->
  (height s <= fuel)%nat ->
  (forall g t, IsOk (tg_admit g t) = true) ->
  (IsProfilingEnable (ext w) = true ->
   IsOk (fst (ProfilingInitialize (ext w))) = true) ->
  exists w',
    Launch fuel this w = Some (Status_OK, w') /\
    tree w' = with_tree_state kDeTStateExecuting
                (with_tg (tg_ (tree w) ++ profiling_tasks w
                            ++ op_tasks (ops w) (postorder s)) (tree w)) /\
    ext w' = profiling_ext w /\
    (forall a, a ∈ postorder s ->
       exists o, ops w !! a = Some o /\
                 ops w' !! a = Some (set_state kDeOpRunning o)) /\
    (forall a, a ∉ postorder s -> ops w' !! a = ops w !! a) /\
    (NoDup (postorder s) ->
     forall a o, a ∈ postorder s -> ops w !! a = Some o ->
       tasks_of a (op_tasks (ops w) (postorder s))
         = if inlined o then []
           else [mkTask ("Op launched, OperatorId:"
                           +:+ to_string (operator_id_ o)) (RunOp a)]).
Proof.
  intros Hst Hrep Hfuel Hadmit Hprof.
  pose proof (repr_lookup _ _ _ Hrep) as Hall.
  eexists. split; [|split; [|split; [|split; [|split]]]].
  - unfold Launch. destruct (decide _) as [H|_]; [contradiction|].
    unfold Print. rewrite (PrintNode_repr _ _ _ _ Hrep Hfuel).
    unfold and_then at 1.
    assert (Hpre :
      (if IsProfilingEnable (ext w)
       then RETURN_IF_NOT_OK profiling_Initialize ;;
            CreateAsyncTask "Monitor Thread launched" RunMonitor
       else RETURN Status_OK) w
      = Some (if IsProfilingEnable (ext w)
              then tg_admit (tg_ (tree w)) monitor_task else Status_OK,
              {| tree := with_tg (tg_ (tree w) ++ profiling_tasks w) (tree w);
                 ops := ops w; ext := profiling_ext w |})).
    { unfold profiling_tasks, profiling_ext.
      destruct (IsProfilingEnable (ext w)) eqn:Hen.
      - specialize (Hprof eq_refl).
        unfold and_then, profiling_Initialize, CreateAsyncTask.
        destruct (ProfilingInitialize (ext w)) as [s0 e0]. cbn in Hprof.
        rewrite Hprof. cbn [tree ops ext]. fold monitor_task.
        by rewrite Hadmit.
      - unfold RETURN. destruct w as [[] ? ?]. cbn. by rewrite app_nil_r. }
    rewrite Hpre.
    assert (Hok : IsOk (if IsProfilingEnable (ext w)
                        then tg_admit (tg_ (tree w)) monitor_task
                        else Status_OK) = true).
    { destruct (IsProfilingEnable (ext w)); [apply Hadmit | reflexivity]. }
    rewrite Hok. unfold begin. cbn [ops tree with_tg root_].
    unfold Iterator.
    rewrite (PostOrderTraverse_repr _ _ [] _ _ Hrep Hfuel). cbn [app].
    unfold and_then. rewrite (Launch_loop_all _ Hadmit) by exact Hall.
    cbn [IsOk Status_OK get_code]. reflexivity.
  - cbn [tree with_tree with_tg with_tree_state tg_ tree_state_ id_count_
         root_ prepare_flags_ eoe_stack_ sampler_stack_ ops].
    by rewrite <- app_assoc.
  - reflexivity.
  - intros a Ha. destruct (Hall a Ha) as [o Ho]. exists o. split; [exact Ho|].
    cbn [ops with_tree]. rewrite lookup_mark_running.
    destruct (decide _); [|contradiction]. by rewrite Ho.
  - intros a Ha. cbn [ops with_tree]. rewrite lookup_mark_running.
    by destruct (decide _).
  - intros Hnd a o Ha Ho. by rewrite (tasks_of_op_tasks _ _ _ _ Hnd Ha Ho).
Qed.

Lemma Launch_not_ready fuel this w :
  tree_state_ (tree w) <> kDeTStateReady ->
  Launch fuel this w =
    Some (STATUS_UNEXPECTED
            ("Invalid tree state for launching tree. Current state: "
             +:+ to_string (TreeState_to_int (tree_state_ (tree w)))
             +:+ " Expected state: "
             +:+ to_string (TreeState_to_int kDeTStateReady)), w).
Proof.
  intros Hst. unfold Launch.
  destruct (decide _) as [_|H]; [reflexivity | contradiction].
Qed.

Lemma Launch_ok_Executing fuel this w s w' :
  Launch fuel this w = Some (s, w') -> IsOk s = true ->
  tree_state_ (tree w') = kDeTStateExecuting.
Proof.
  intros HL Hok. unfold Launch in HL.
  destruct (decide _) as [_|_] in HL.
  { injection HL as <- _. discriminate. }
  destruct (Print fuel w); [|discriminate].
  unfold and_then in HL.
  destruct (if IsProfilingEnable (ext w) then _ else _) as [[s1 w1]|];
    [|discriminate].
  destruct (IsOk s1) eqn:E1.
  - destruct (begin fuel w1); [|discriminate].
    destruct (Launch_loop l w1) as [[s2 w2]|]; [|discriminate].
    destruct (IsOk s2) eqn:E2.
    + injection HL as _ <-. reflexivity.
    + injection HL as <- _. congruence.
  - injection HL as <- _. congruence.
Qed.

(** C8.  [Launch] on a tree that is not Ready fails with the
    unexpected-status failure whose message gives the observed state and
    the expected state Ready, and leaves the world as it was: no task is
    added to the task group, and the tree state and the state of every
    operator are unchanged.  In particular a second [Launch] after one that
    succeeded fails so, for the first left the tree Executing. *)
Theorem Launch_invalid_state this :
  (forall fuel w,
     tree_state_ (tree w) <> kDeTStateReady ->
     exists s,
       Launch fuel this w = Some (s, w) /\
       IsOk s = false /\
       InvalidState "launching tree" (tree_state_ (tree w))
         (" Expected state: " +:+ to_string (TreeState_to_int kDeTStateReady))
         s) /\
  (forall fuel1 fuel2 w s1 w1,
     Launch fuel1 this w = Some (s1, w1) -> IsOk s1 = true ->
     tree_state_ (tree w1) = kDeTStateExecuting /\
     exists s2,
       Launch fuel2 this w1 = Some (s2, w1) /\
       IsOk s2 = false /\
       InvalidState "launching tree" kDeTStateExecuting
         (" Expected state: " +:+ to_string (TreeState_to_int kDeTStateReady))
         s2).
Proof.
  split.
  - intros fuel w Hst. rewrite (Launch_not_ready _ _ _ Hst).
    eexists. split; [reflexivity|]. repeat split.
  - intros fuel1 fuel2 w s1 w1 HL Hok.
    pose proof (Launch_ok_Executing _ _ _ _ _ HL Hok) as Hex.
    split; [exact Hex|].
    rewrite Launch_not_ready by (rewrite Hex; discriminate).
    rewrite Hex. eexists. split; [reflexivity|]. repeat split.
Qed.

(** *** The lifecycle *)

(** The operations that look at the state before they store one never move
    it backward. *)
Lemma AssociateNode_forward this op w s w' :
  AssociateNode this op w = Some (s, w') ->
  TreeState_le (tree_state_ (tree w)) (tree_state_ (tree w')).
Proof.
  unfold AssociateNode, TreeState_le. destruct (ops w !! op) as [o|]; [|done].
  destruct (decide _); [intros [= _ <-]; lia|].
  destruct (decide _) as [|Hn]; [intros [= _ <-]; lia|].
  intros [= _ <-]. cbn. destruct (tree_state_ (tree w)); cbn; try lia.
  all: exfalso; apply Hn; split; discriminate.
Qed.

Lemma AssignRoot_forward this op w s w' :
  AssignRoot this op w = Some (s, w') ->
  TreeState_le (tree_state_ (tree w)) (tree_state_ (tree w')).
Proof.
  unfold AssignRoot. destruct (decide _); [intros [= _ <-]; unfold TreeState_le; lia|].
  destruct (ops w !! op) as [o|]; [|done]. unfold and_then.
  destruct (decide _).
  - destruct (AssociateNode this op w) as [[s1 w1]|] eqn:E; [|done].
    apply AssociateNode_forward in E.
    destruct (IsOk s1); intros [= _ <-]; exact E.
  - unfold RETURN. cbn. intros [= _ <-]. unfold TreeState_le. cbn. lia.
Qed.

Lemma CreateAsyncTask_tree_state name f w s w' :
  CreateAsyncTask name f w = Some (s, w') ->
  tree_state_ (tree w') = tree_state_ (tree w).
Proof.
  unfold CreateAsyncTask. by destruct (IsOk _); intros [= _ <-].
Qed.

Lemma Launch_loop_tree_state itr : forall w s w',
  Launch_loop itr w = Some (s, w') ->
  tree_state_ (tree w') = tree_state_ (tree w).
Proof.
  induction itr as [|[a|] itr IH]; intros w s w'; cbn [Launch_loop].
  - done.
  - destruct (ops w !! a) as [o|]; [|done].
    destruct (negb (inlined o)).
    + unfold and_then.
      destruct (CreateAsyncTask _ _ _) as [[s1 w1]|] eqn:E; [|done].
      apply CreateAsyncTask_tree_state in E. cbn in E.
      destruct (IsOk s1).
      * intros H. apply IH in H. congruence.
      * intros [= _ <-]. exact E.
    + intros H. by apply IH in H.
  - by intros [= _ <-].
Qed.

Lemma Launch_forward (fuel : nat) this w s w' :
  Launch fuel this w = Some (s, w') ->
  TreeState_le (tree_state_ (tree w)) (tree_state_ (tree w')).
Proof.
  destruct (IsOk s) eqn:Hok.
  - intros H. rewrite (Launch_ok_Executing _ _ _ _ _ H Hok).
    unfold TreeState_le. destruct (tree_state_ (tree w)); cbn; lia.
  - unfold Launch, TreeState_le. destruct (decide _); [intros [= _ <-]; lia|].
    destruct (Print fuel w); [|done]. unfold and_then at 1.
    assert (Hpre : forall s1 w1,
      (if IsProfilingEnable (ext w)
       then RETURN_IF_NOT_OK profiling_Initialize ;;
            CreateAsyncTask "Monitor Thread launched" RunMonitor
       else RETURN Status_OK) w = Some (s1, w1) ->
      tree_state_ (tree w1) = tree_state_ (tree w)).
    { intros s1 w1. destruct (IsProfilingEnable (ext w)).
      - unfold and_then, profiling_Initialize.
        destruct (ProfilingInitialize (ext w)) as [s0 e0].
        destruct (IsOk s0); [|by intros [= _ <-]].
        intros H. by apply CreateAsyncTask_tree_state in H.
      - by intros [= _ <-]. }
    destruct (if IsProfilingEnable (ext w) then _ else _) as [[s1 w1]|];
      [|done].
    specialize (Hpre s1 w1 eq_refl).
    destruct (IsOk s1); [|intros [= _ <-]; rewrite Hpre; lia].
    destruct (begin fuel w1); [|done]. unfold and_then.
    destruct (Launch_loop l w1) as [[s2 w2]|] eqn:E; [|done].
    apply Launch_loop_tree_state in E.
    destruct (IsOk s2) eqn:E2; [intros [= <- _]; done|].
    intros [= _ <-]. rewrite E, Hpre. lia.
Qed.

Lemma for_each_ok_tree_state {A : Type} (f : A -> Exec Ext) l :
  (forall x w s w', f x w = Some (s, w') ->
     tree_state_ (tree w') = tree_state_ (tree w)) ->
  forall w s w',
    for_each_ok f l w = Some (s, w') ->
    tree_state_ (tree w') = tree_state_ (tree w).
Proof.
  intros Hf. induction l as [|x l IH]; intros w s w'; cbn [for_each_ok].
  - by intros [= _ <-].
  - unfold and_then. destruct (f x w) as [[s1 w1]|] eqn:E; [|done].
    apply Hf in E. destruct (IsOk s1).
    + intros H. apply IH in H. congruence.
    + by intros [= _ <-].
Qed.

(** The legacy walk stores no tree state: when the hooks leave the state
    alone, so does the walk. *)
Lemma PrepareNode_tree_state this :
  (forall a w, tree_state_ (tree (snd (PrepareNodePreAction a w)))
               = tree_state_ (tree w)) ->
  (forall a w, tree_state_ (tree (snd (PrepareNodePostAction a w)))
               = tree_state_ (tree w)) ->
  forall (fuel : nat) p w s w',
    PrepareNode fuel this p w = Some (s, w') ->
    tree_state_ (tree w') = tree_state_ (tree w).
Proof.
  intros Hpre Hpost. induction fuel as [|fuel IH]; intros p w s w'; [done|].
  cbn [PrepareNode]. destruct p as [a|]; [|done].
  destruct (ops w !! a); [|done]. unfold and_then at 1, hook at 1.
  specialize (Hpre a w). destruct (PrepareNodePreAction a w) as [s1 w1].
  cbn [snd] in Hpre.
  destruct (IsOk s1); [|intros [= _ <-]; exact Hpre].
  cbn zeta. destruct (ops (set_prepare_flags _ w1) !! a) as [o|]; [|done].
  unfold and_then at 1.
  destruct (for_each_ok _ _ _) as [[s2 w2]|] eqn:E; [|done].
  apply (for_each_ok_tree_state _ _ (IH)) in E. cbn in E.
  destruct (IsOk s2); [|intros [= _ <-]; congruence].
  unfold and_then at 1, hook at 1.
  specialize (Hpost a w2). destruct (PrepareNodePostAction a w2) as [s3 w3].
  cbn [snd] in Hpost.
  destruct (IsOk s3); intros [= _ <-]; cbn; congruence.
Qed.

Lemma PrepareDeprecated_forward (fuel : nat) this w s w' :
  (forall a w, tree_state_ (tree (snd (PrepareNodePreAction a w)))
               = tree_state_ (tree w)) ->
  (forall a w, tree_state_ (tree (snd (PrepareNodePostAction a w)))
               = tree_state_ (tree w)) ->
  PrepareDeprecated fuel this w = Some (s, w') ->
  TreeState_le (tree_state_ (tree w)) (tree_state_ (tree w')).
Proof.
  intros Hpre Hpost. unfold PrepareDeprecated, TreeState_le.
  destruct (decide _) as [|Hst]; [intros [= _ <-]; lia|].
  unfold and_then.
  destruct (PrepareNode _ _ _ _) as [[s1 w1]|] eqn:E; [|done].
  apply (PrepareNode_tree_state this Hpre Hpost) in E.
  destruct (IsOk s1); intros [= _ <-]; cbn.
  - destruct (tree_state_ (tree w)); cbn; try lia; exfalso; apply Hst; done.
  - rewrite E. lia.
Qed.

(** [PrepareTreePostAction] is the one that can: it goes backward exactly
    when the tree is Ready or Executing. *)
Lemma PrepareTreePostAction_backward this w :
  exists w',
    PrepareTreePostAction this w = Some (Status_OK, w') /\
    tree_state_ (tree w') = kDeTStatePrepare /\
    (~ TreeState_le (tree_state_ (tree w)) (tree_state_ (tree w')) <->
     tree_state_ (tree w) = kDeTStateReady
     \/ tree_state_ (tree w) = kDeTStateExecuting).
Proof.
  eexists. split; [reflexivity|]. split; [reflexivity|].
  unfold TreeState_le. cbn.
  destruct (tree_state_ (tree w)); cbn; split; intros H;
    try lia; try (destruct H; discriminate); auto.
Qed.

(** *** The prepare pipeline *)

Lemma PrepareTreePreAction_pass this w :
  PrepareTreePreAction this w =
    let '(s, _, w1) := RemovalPass this false w in
    Some (if IsOk s then Status_OK else s, w1).
Proof.
  unfold PrepareTreePreAction. cbn [run_passes].
  destruct (RemovalPass this false w) as [[s m] w1].
  by destruct (IsOk s).
Qed.

Lemma PrepareDeprecated_ok_status (fuel : nat) this w s w' :
  PrepareDeprecated fuel this w = Some (s, w') -> IsOk s = true ->
  s = Status_OK.
Proof.
  unfold PrepareDeprecated. destruct (decide _).
  - intros [= <- _]. discriminate.
  - unfold and_then. destruct (PrepareNode _ _ _ _) as [[s1 w1]|]; [|done].
    destruct (IsOk s1) eqn:E; intros [= <- _]; congruence.
Qed.

(** C4.  [Prepare] runs the pre-action pass first.  When the pass fails,
    [Prepare] returns the failure of the pass and the world as the pass
    left it: the optimization phase, the post-action phase (which would
    have stored the state Prepare) and the legacy walk (which would have
    called the hooks) have not run.  When the pass succeeds, the
    optimization phase runs next and changes nothing, then the post-action
    phase stores the state Prepare, then the legacy walk runs from there,
    and its outcome is the outcome of [Prepare]. *)
Theorem Prepare_fail_fast (fuel : nat) this w s modified w1 :
  RemovalPass this false w = (s, modified, w1) ->
  (IsOk s = false ->
     PrepareTreePreAction this w = Some (s, w1) /\
     Prepare fuel this w = Some (s, w1)) /\
  (IsOk s = true ->
     let w2 := with_tree (with_tree_state kDeTStatePrepare (tree w1)) w1 in
     PrepareTreePreAction this w = Some (Status_OK, w1) /\
     Optimize this w1 = Some (Status_OK, w1) /\
     PrepareTreePostAction this w1 = Some (Status_OK, w2) /\
     Prepare fuel this w = PrepareDeprecated fuel this w2).
Proof.
  intros Hpass. pose proof (PrepareTreePreAction_pass this w) as Hpre.
  rewrite Hpass in Hpre. split; intros Hs; rewrite Hs in Hpre.
  - split; [exact Hpre|]. unfold Prepare, and_then at 1.
    by rewrite Hpre, Hs.
  - cbn zeta. split; [exact Hpre|]. split; [reflexivity|].
    split; [reflexivity|].
    unfold Prepare, and_then at 1. rewrite Hpre. cbn [IsOk Status_OK get_code].
    unfold and_then at 1. unfold Optimize at 1, RETURN at 1.
    cbn [IsOk Status_OK get_code].
    unfold and_then at 1. unfold PrepareTreePostAction at 1.
    cbn [IsOk Status_OK get_code].
    unfold and_then at 1.
    destruct (PrepareDeprecated _ _ _) as [[s3 w3]|] eqn:E; [|reflexivity].
    destruct (IsOk s3) eqn:E3; [|reflexivity].
    by rewrite (PrepareDeprecated_ok_status _ _ _ _ _ E E3).
Qed.

Lemma testbit_BitClear bits mask F :
  0 <= F < 32 ->
  Z.testbit (BitClear bits (mask mod 2 ^ 32)) F
    = Z.testbit bits F && negb (Z.testbit mask F).
Proof.
  intros HF. unfold BitClear, uint32_max.
  rewrite Z.land_spec, Z.lxor_spec.
  rewrite Z.mod_pow2_bits_low by lia.
  change 4294967295 with (Z.ones 32).
  rewrite Z.ones_spec_low by lia.
  by destruct (Z.testbit mask F).
Qed.

Lemma testbit_BitSet bits mask F :
  0 <= F < 32 ->
  Z.testbit (BitSet bits (mask mod 2 ^ 32)) F
    = Z.testbit bits F || Z.testbit mask F.
Proof.
  intros HF. unfold BitSet. rewrite Z.lor_spec.
  by rewrite Z.mod_pow2_bits_low by lia.
Qed.

Lemma declares_node s a cs F :
  s = Node a cs ->
  declares s F
    = existsb (fun b => Z.testbit (PrepareFlags b) F) (flat_map postorder cs)
      || Z.testbit (PrepareFlags a) F.
Proof.
  intros ->. unfold declares. cbn [postorder].
  rewrite existsb_app. cbn. by rewrite orb_false_r.
Qed.

(** With such hooks the walk of a tree of shape [s] succeeds, and of the
    mask it clears exactly the bits that some node of the tree declares. *)
Lemma PrepareNode_walk this :
  quiet_hook PrepareNodePreAction ->
  quiet_hook PrepareNodePostAction ->
  forall s (fuel : nat) p w,
    repr (ops w) p s ->
    (height s <= fuel)%nat ->
    exists w',
      PrepareNode fuel this p w = Some (Status_OK, w') /\
      ops w' = ops w /\
      forall F, 0 <= F < 32 ->
        Z.testbit (prepare_flags_ (tree w')) F
          = Z.testbit (prepare_flags_ (tree w)) F && negb (declares s F).
Proof.
  intros Hpre Hpost. induction s as [a cs IH] using Shape_ind'.
  intros fuel p w Hrep Hfuel. inversion Hrep as [a' o cs' Ho Hcs]; subst.
  destruct fuel as [|fuel]; [cbn [height] in Hfuel; lia|].
  cbn [height] in Hfuel. apply le_S_n in Hfuel.
  assert (Hloop : forall ps w0,
    Forall2 (repr (ops w0)) ps cs ->
    exists w',
      for_each_ok (PrepareNode fuel this) ps w0 = Some (Status_OK, w') /\
      ops w' = ops w0 /\
      forall F, 0 <= F < 32 ->
        Z.testbit (prepare_flags_ (tree w')) F
          = Z.testbit (prepare_flags_ (tree w0)) F
            && negb (existsb (fun b => Z.testbit (PrepareFlags b) F)
                       (flat_map postorder cs))).
  { clear Hrep Ho Hcs. revert Hfuel.
    induction IH as [|c cs Hc _ IHcs]; intros Hfuel ps w0 Hps.
    - inversion Hps; subst. exists w0. cbn. split; [done|]. split; [done|].
      intros F _. by rewrite andb_true_r.
    - inversion Hps as [|q c' qs cs' Hq Hqs]; subst.
      apply height_child_le in Hfuel as [Hh Hm].
      destruct (Hc fuel q w0 Hq Hh) as (w1 & E1 & Hops1 & Hbits1).
      rewrite <- Hops1 in Hqs.
      destruct (IHcs Hm qs w1 Hqs) as (w2 & E2 & Hops2 & Hbits2).
      exists w2. cbn [for_each_ok]. unfold and_then at 1. rewrite E1.
      cbn [IsOk Status_OK get_code]. split; [exact E2|].
      split; [congruence|]. intros F HF.
      rewrite (Hbits2 F HF), (Hbits1 F HF). cbn [flat_map].
      rewrite existsb_app. unfold declares.
      by destruct (Z.testbit _ F), (existsb _ (postorder c)), (existsb _ _). }
  cbn [PrepareNode]. rewrite Ho. unfold and_then at 1, hook at 1.
  destruct (Hpre a w) as (Hok1 & Hops1 & Hfl1).
  destruct (PrepareNodePreAction a w) as [s1 w1]. cbn [fst snd] in *.
  rewrite Hok1. cbn zeta.
  set (w2 := set_prepare_flags _ w1).
  assert (Hops2 : ops w2 = ops w) by exact Hops1.
  rewrite Hops2, Ho. rewrite <- Hops2 in Hcs.
  destruct (Hloop (child_ o) w2 Hcs) as (w3 & E3 & Hops3 & Hbits3).
  unfold and_then at 1. rewrite E3. cbn [IsOk Status_OK get_code].
  unfold and_then at 1, hook at 1.
  destruct (Hpost a w3) as (Hok4 & Hops4 & Hfl4).
  destruct (PrepareNodePostAction a w3) as [s4 w4]. cbn [fst snd] in *.
  rewrite Hok4. eexists. split; [reflexivity|].
  split; [cbn; congruence|].
  intros F HF. cbn [set_prepare_flags with_tree with_prepare_flags tree
                    prepare_flags_].
  rewrite testbit_BitClear by exact HF.
  rewrite Hfl4, (Hbits3 F HF). subst w2.
  cbn [set_prepare_flags with_tree with_prepare_flags tree prepare_flags_].
  rewrite testbit_BitSet by exact HF. rewrite Hfl1.
  rewrite (declares_node _ a cs F eq_refl).
  by destruct (Z.testbit (prepare_flags_ (tree w)) F),
       (Z.testbit (PrepareFlags a) F), (existsb _ _).
Qed.

Lemma max_list_app_le (l1 l2 : list nat) (n : nat) :
  (max_list (l1 ++ l2) <= n)%nat ->
  (max_list l1 <= n)%nat /\ (max_list l2 <= n)%nat.
Proof. induction l1 as [|k l1 IH]; simpl; [lia|]. intros H. lia. Qed.

Lemma repr_roots h ps cs : Forall2 (repr h) ps cs -> ps = roots cs.
Proof.
  induction 1 as [|p c ps cs Hp _ IH]; [reflexivity|].
  destruct Hp. cbn [roots map root_of]. fold (roots cs). by rewrite <- IH.
Qed.

Lemma for_each_ok_app {A : Type} (f : A -> Exec Ext) l1 l2 w w1 :
  for_each_ok f l1 w = Some (Status_OK, w1) ->
  for_each_ok f (l1 ++ l2) w = for_each_ok f l2 w1.
Proof.
  revert w. induction l1 as [|x l1 IH]; intros w; cbn [for_each_ok app].
  - by intros [= ->].
  - unfold and_then. destruct (f x w) as [[s0 w0]|]; [|done].
    destruct (IsOk s0) eqn:E; [apply IH|]. intros [= -> ->]. discriminate E.
Qed.

(** The loop over the children of a node: the walks of the subtrees [cs]
    one after the other clear exactly the bits that their nodes declare. *)
Lemma PrepareNode_walk_children this :
  quiet_hook PrepareNodePreAction ->
  quiet_hook PrepareNodePostAction ->
  forall cs (fuel : nat) w,
    Forall2 (repr (ops w)) (roots cs) cs ->
    (max_list (map height cs) <= fuel)%nat ->
    exists w',
      for_each_ok (PrepareNode fuel this) (roots cs) w
        = Some (Status_OK, w') /\
      ops w' = ops w /\
      forall F, 0 <= F < 32 ->
        Z.testbit (prepare_flags_ (tree w')) F
          = Z.testbit (prepare_flags_ (tree w)) F
            && negb (existsb (fun b => Z.testbit (PrepareFlags b) F)
                       (flat_map postorder cs)).
Proof.
  intros Hpre Hpost. induction cs as [|c cs IH]; intros fuel w Hps Hfuel.
  - exists w. cbn. split; [done|]. split; [done|].
    intros F _. by rewrite andb_true_r.
  - inversion Hps as [|q c' qs cs' Hq Hqs]; subst.
    apply height_child_le in Hfuel as [Hh Hm].
    destruct (PrepareNode_walk this Hpre Hpost c fuel _ w Hq Hh)
      as (w1 & E1 & Hops1 & Hbits1).
    rewrite <- Hops1 in Hqs.
    destruct (IH fuel w1 Hqs Hm) as (w2 & E2 & Hops2 & Hbits2).
    exists w2. cbn [roots map for_each_ok]. unfold and_then at 1.
    rewrite E1. cbn [IsOk Status_OK get_code]. split; [exact E2|].
    split; [congruence|]. intros F HF.
    rewrite (Hbits2 F HF), (Hbits1 F HF). cbn [flat_map].
    rewrite existsb_app. unfold declares.
    by destruct (Z.testbit _ F), (existsb _ (postorder c)), (existsb _ _).
Qed.

(** C5, as the code has it.  Let the hooks succeed and leave the operators
    and the mask alone, and let [X] be a node whose subtrees are [ss1], then
    the subtree [Node c csc] that holds [Y], then [ss2]; [X] and [Y] both
    declare the bit [F].  The walk of [X] succeeds, and it goes through
    these worlds: [wx], after the pre-action of [X] and the OR of its bits
    into the mask, where [F] is set; [w1], after the walks of [ss1];
    [w2], when the walk of the subtree of [Y] has returned to the loop of
    [X]; [w3], after the walks of [ss2], which is the world that the
    post-action hook of [X] is called on.  A walk ANDs the complement of the
    declared bits into the mask: in [w2] every bit that a node of the
    subtree of [Y] declares is clear and every other bit is as in [w1].  So
    [F] is clear in [w2] and still clear in [w3], while [X] is being walked:
    the clear is by bit value, not by owner. *)
Theorem PrepareNode_clears_by_value (fuel : nat) this x ss1 c csc ss2 y w F :
  quiet_hook PrepareNodePreAction ->
  quiet_hook PrepareNodePostAction ->
  repr (ops w) (Some x) (Node x (ss1 ++ Node c csc :: ss2)) ->
  (height (Node x (ss1 ++ Node c csc :: ss2)) <= S fuel)%nat ->
  y ∈ postorder (Node c csc) ->
  0 <= F < 32 ->
  Z.testbit (PrepareFlags x) F = true ->
  Z.testbit (PrepareFlags y) F = true ->
  let w0 := snd (PrepareNodePreAction x w) in
  let wx := set_prepare_flags
              (BitSet (prepare_flags_ (tree w0)) (PrepareFlags x mod 2 ^ 32))
              w0 in
  exists w1 w2 w3,
    for_each_ok (PrepareNode fuel this) (roots ss1) wx
      = Some (Status_OK, w1) /\
    PrepareNode fuel this (Some c) w1 = Some (Status_OK, w2) /\
    for_each_ok (PrepareNode fuel this) (roots ss2) w2
      = Some (Status_OK, w3) /\
    (let w4 := snd (PrepareNodePostAction x w3) in
     PrepareNode (S fuel) this (Some x) w
       = Some (Status_OK,
               set_prepare_flags
                 (BitClear (prepare_flags_ (tree w4))
                    (PrepareFlags x mod 2 ^ 32)) w4)) /\
    (forall G, 0 <= G < 32 ->
       Z.testbit (prepare_flags_ (tree wx)) G
         = Z.testbit (prepare_flags_ (tree w)) G
           || Z.testbit (PrepareFlags x) G) /\
    (forall G, 0 <= G < 32 ->
       Z.testbit (prepare_flags_ (tree w1)) G
         = Z.testbit (prepare_flags_ (tree wx)) G
           && negb (existsb (fun b => Z.testbit (PrepareFlags b) G)
                      (flat_map postorder ss1))) /\
    (forall G, 0 <= G < 32 ->
       Z.testbit (prepare_flags_ (tree w2)) G
         = Z.testbit (prepare_flags_ (tree w1)) G
           && negb (declares (Node c csc) G)) /\
    Z.testbit (prepare_flags_ (tree wx)) F = true /\
    Z.testbit (prepare_flags_ (tree w2)) F = false /\
    Z.testbit (prepare_flags_ (tree w3)) F = false.
Proof.
  intros Hpre Hpost Hrep Hfuel Hy HF Hx HyF w0 wx.
  inversion Hrep as [x' ox cs' Hox Hcs]; subst.
  pose proof (repr_roots _ _ _ Hcs) as Hch.
  cbn [height] in Hfuel. apply le_S_n in Hfuel.
  rewrite map_app in Hfuel. apply max_list_app_le in Hfuel as [Hf1 Hf2].
  cbn [map] in Hf2. apply height_child_le in Hf2 as [Hfc Hf2].
  rewrite Hch in Hcs. unfold roots in Hcs. rewrite map_app in Hcs.
  apply Forall2_app_inv in Hcs as [Hcs1 Hcs2];
    [|by rewrite length_map].
  cbn [map] in Hcs2.
  inversion Hcs2 as [|q c' qs cs'' Hc Hcs3]; subst. cbn [root_of] in Hc.
  destruct (Hpre x w) as (Hok0 & Hops0 & Hfl0).
  assert (Hopsx : ops wx = ops w) by exact Hops0.
  assert (Hbx : forall G, 0 <= G < 32 ->
            Z.testbit (prepare_flags_ (tree wx)) G
              = Z.testbit (prepare_flags_ (tree w)) G
                || Z.testbit (PrepareFlags x) G).
  { intros G HG. subst wx. cbn [set_prepare_flags with_tree with_prepare_flags
                                 tree prepare_flags_].
    rewrite testbit_BitSet by exact HG. subst w0. by rewrite Hfl0. }
  rewrite <- Hopsx in Hcs1.
  destruct (PrepareNode_walk_children this Hpre Hpost ss1 fuel wx Hcs1 Hf1)
    as (w1 & E1 & Hops1 & Hb1).
  assert (Hc1 : repr (ops w1) (Some c) (Node c csc)) by congruence.
  destruct (PrepareNode_walk this Hpre Hpost _ fuel _ w1 Hc1 Hfc)
    as (w2 & E2 & Hops2 & Hb2).
  assert (Hcs2' : Forall2 (repr (ops w2)) (roots ss2) ss2).
  { replace (ops w2) with (ops w) by congruence. exact Hcs3. }
  destruct (PrepareNode_walk_children this Hpre Hpost ss2 fuel w2 Hcs2' Hf2)
    as (w3 & E3 & Hops3 & Hb3).
  assert (Hdecl : declares (Node c csc) F = true).
  { unfold declares. apply existsb_exists. exists y.
    split; [by apply list_elem_of_In | exact HyF]. }
  assert (HF2 : Z.testbit (prepare_flags_ (tree w2)) F = false).
  { rewrite (Hb2 F HF), Hdecl. apply andb_false_r. }
  exists w1, w2, w3.
  split; [exact E1|]. split; [exact E2|]. split; [exact E3|].
  split; [|split; [exact Hbx|split; [exact Hb1|split; [exact Hb2|split;
    [|split; [exact HF2|]]]]]].
  - cbn zeta. cbn [PrepareNode]. rewrite Hox.
    unfold and_then at 1, hook at 1. fold w0 in Hok0.
    destruct (PrepareNodePreAction x w) as [s0 w0'] eqn:E0.
    cbn [snd fst] in *. subst w0. rewrite Hok0. cbn zeta. fold wx.
    rewrite Hopsx, Hox, Hch. unfold roots. rewrite map_app. cbn [map].
    fold (roots ss1) (roots ss2). unfold and_then at 1.
    rewrite (for_each_ok_app _ _ _ _ _ E1). cbn [for_each_ok].
    unfold and_then at 1. cbn [root_of]. rewrite E2.
    cbn [IsOk Status_OK get_code]. rewrite E3.
    cbn [IsOk Status_OK get_code].
    unfold and_then at 1, hook at 1.
    destruct (Hpost x w3) as (Hok4 & _ & _).
    destruct (PrepareNodePostAction x w3) as [s4 w4]. cbn [fst snd] in *.
    by rewrite Hok4.
  - rewrite (Hbx F HF), Hx. apply orb_true_r.
  - rewrite (Hb3 F HF), HF2. reflexivity.
Qed.

End Properties.

(** ** The lifecycle on the example tree *)

(** C6: the code moves the state backward.  The tree of three levels is
    built, prepared and launched through the public operations, and is
    Executing.  [Prepare] on it succeeds and leaves it Ready, which is
    earlier in the order, and [Launch] then succeeds a second time and asks
    for the tasks again.  The step that goes backward is
    [PrepareTreePostAction], which stores the state Prepare without looking
    at the state; on the Ready tree it goes back to Prepare. *)
Theorem Prepare_moves_state_backward :
  (RETURN_IF_NOT_OK
     AssociateNodes Example.this [Example.Leaf; Example.Mid; Example.Top] ;;
   RETURN_IF_NOT_OK AssignRoot Example.this Example.Top ;;
   RETURN_IF_NOT_OK Prepare (collaborators := Example.quiet) 3 Example.this ;;
   Launch (collaborators := Example.quiet) 3 Example.this) Example.world3
    = Some (Status_OK, Example.executing3)
  /\ Prepare (collaborators := Example.quiet) 3 Example.this
       Example.executing3 = Some (Status_OK, Example.ready_again3)
  /\ tree_state_ (tree Example.executing3) = kDeTStateExecuting
  /\ tree_state_ (tree Example.ready_again3) = kDeTStateReady
  /\ ~ TreeState_le (tree_state_ (tree Example.executing3))
         (tree_state_ (tree Example.ready_again3))
  /\ Launch (collaborators := Example.quiet) 3 Example.this
       Example.ready_again3 = Some (Status_OK, Example.executing_again3)
  /\ PrepareTreePostAction Example.this Example.ready3
     = Some (Status_OK,
             with_tree (with_tree_state kDeTStatePrepare (tree Example.ready3))
               Example.ready3)
  /\ ~ TreeState_le (tree_state_ (tree Example.ready3)) kDeTStatePrepare.
Proof.
  split; [vm_compute; reflexivity|]. split; [vm_compute; reflexivity|].
  split; [reflexivity|]. split; [reflexivity|].
  split; [vm_compute; intros H; apply H; reflexivity|].
  split; [vm_compute; reflexivity|]. split; [reflexivity|].
  vm_compute. intros H. apply H. reflexivity.
Qed.

(** C2 as stated fails: on the Ready tree of three levels, with a task
    group that refuses the task of [Leaf], [Launch] returns the failure of
    the task group; [Leaf] has been marked Running, no task exists, and the
    tree is still Ready. *)
Lemma Launch_ready_can_fail :
  Launch (collaborators := Example.refusing) 3 Example.this Example.ready3
    = Some (Example.spawn_failure,
            with_ops
              (<[Example.Leaf :=
                   Example.built_op 0 kDeOpRunning [] 16]> Example.store3_built)
              Example.ready3)
  /\ IsOk Example.spawn_failure = false
  /\ tree_state_ (tree Example.ready3) = kDeTStateReady.
Proof. split; [vm_compute; reflexivity|]. split; reflexivity. Qed.

(** C5 as stated fails: [X] and its child [Y] both declare bit 0.  The
    post-action hook of [Y] sees the mask 1; then the bits of [Y] are
    cleared, and the post-action hook of [X], which runs while [X] is still
    being walked, sees the mask 0: bit 0 is clear. *)
Lemma PrepareNode_flag_not_restored :
  PrepareNode (collaborators := Example.observing) 2 Example.this
      (Some Example.X) Example.worldXY
    = Some (Status_OK,
            {| tree := ExecutionTree_new; ops := Example.storeXY;
               ext := [1; 0] |})
  /\ Z.testbit (PrepareFlags (Collaborators := Example.observing) Example.X) 0
     = true
  /\ Z.testbit (PrepareFlags (Collaborators := Example.observing) Example.Y) 0
     = true
  /\ Z.testbit 0 0 = false.
Proof. split; [vm_compute; reflexivity|]. repeat split. Qed.

(** ** The theorems at work on the examples *)

Lemma repr_store4 : repr Example.store4 (Some Example.R) Example.shape4.
Proof.
  eapply repr_node; [reflexivity|]. repeat constructor.
  - eapply repr_node; [reflexivity|]. repeat constructor.
    eapply repr_node; [reflexivity|]. constructor.
  - eapply repr_node; [reflexivity|]. constructor.
Qed.

Lemma repr_store3_built :
  repr Example.store3_built (Some Example.Top) Example.shape3.
Proof.
  eapply repr_node; [reflexivity|]. repeat constructor.
  eapply repr_node; [reflexivity|]. repeat constructor.
  eapply repr_node; [reflexivity|]. constructor.
Qed.

Lemma AssociateNode_ids_sequential_witness :
  exists w',
    AssociateNodes Example.this [Example.Leaf; Example.Mid; Example.Top]
      Example.world3 = Some (Status_OK, w') /\
    id_count_ (tree w') = 3 /\
    (operator_id_ <$> ops w' !! Example.Leaf) = Some 0 /\
    (operator_id_ <$> ops w' !! Example.Mid) = Some 1 /\
    (operator_id_ <$> ops w' !! Example.Top) = Some 2 /\
    tree_state_ (tree w') = kDeTStateBuilding.
Proof.
  destruct (proj2 (proj2 (AssociateNode_ids_sequential Example.this))
              Example.world3 [Example.Leaf; Example.Mid; Example.Top])
    as (w' & Hrun & Hcnt & Hids & Hst & _).
  - left. reflexivity.
  - apply (bool_decide_unpack _). vm_compute. exact I.
  - intros a Ha. rewrite !elem_of_cons in Ha.
    destruct Ha as [->|[->|[->|Ha]]];
      [| | |by apply elem_of_nil in Ha];
      (eexists; split; [reflexivity | discriminate]).
  - unfold int32_min. cbn. lia.
  - unfold int32_max. cbn. lia.
  - exists w'. split; [exact Hrun|]. split; [exact Hcnt|].
    destruct (Hids 0%nat Example.Leaf eq_refl) as (o0 & E0 & ->).
    destruct (Hids 1%nat Example.Mid eq_refl) as (o1 & E1 & ->).
    destruct (Hids 2%nat Example.Top eq_refl) as (o2 & E2 & ->).
    repeat split. apply Hst. discriminate.
Defined.

Lemma AssociateNode_idempotent_witness :
  AssociateNode Example.this Example.Top Example.built3
    = Some (Status_OK, Example.built3).
Proof.
  apply (AssociateNode_idempotent Example.this Example.Top Example.built3
           (Example.built_op 2 kDeOpIdle [Some Example.Mid] 16));
    reflexivity.
Defined.

Lemma AssignRoot_invalid_state_witness :
  exists s,
    AssignRoot Example.this Example.Top Example.world3
      = Some (s, Example.world3) /\
    IsOk s = false /\
    InvalidState "assigning a root node" kDeTStateInit
      (" Expected state: " +:+ to_string 1) s.
Proof.
  apply (AssignRoot_invalid_state Example.this Example.Top Example.world3).
  discriminate.
Defined.

Lemma Iterator_postorder_witness :
  Iterator 3 Example.store4 (Some Example.R)
    = Some [Some Example.C; Some Example.A; Some Example.B; Some Example.R;
            None].
Proof.
  apply (Iterator_postorder Example.store4 (Some Example.R) Example.shape4 3
           repr_store4).
  vm_compute. lia.
Defined.

Lemma Launch_ready_witness :
  exists w',
    Launch (collaborators := Example.quiet) 3 Example.this Example.ready3
      = Some (Status_OK, w') /\
    tree_state_ (tree w') = kDeTStateExecuting /\
    tg_ (tree w') = Example.tasks3 /\
    (state_ <$> ops w' !! Example.Mid) = Some kDeOpRunning.
Proof.
  destruct (Launch_ready (collaborators := Example.quiet) 3 Example.this
              Example.ready3 Example.shape3)
    as (w' & Hrun & Htree & _ & Hmark & _).
  - reflexivity.
  - exact repr_store3_built.
  - vm_compute. lia.
  - reflexivity.
  - discriminate.
  - exists w'. split; [exact Hrun|]. rewrite Htree.
    split; [reflexivity|]. split; [vm_compute; reflexivity|].
    destruct (Hmark Example.Mid) as (o & _ & ->); [|reflexivity].
    vm_compute. set_solver.
Defined.

Lemma Launch_invalid_state_witness :
  exists s2,
    Launch (collaborators := Example.quiet) 3 Example.this Example.executing3
      = Some (s2, Example.executing3) /\
    IsOk s2 = false /\
    InvalidState "launching tree" kDeTStateExecuting
      (" Expected state: " +:+ to_string 3) s2.
Proof.
  apply (proj2 (Launch_invalid_state (collaborators := Example.quiet)
                  Example.this)
           3%nat 3%nat Example.ready3 Status_OK Example.executing3).
  - vm_compute. reflexivity.
  - reflexivity.
Defined.

Lemma Prepare_fail_fast_witness :
  Prepare (collaborators := Example.failing_pass) 3 Example.this
      Example.built3
    = Some (Example.pass_failure, Example.built3)
  /\ tree_state_ (tree Example.built3) = kDeTStateBuilding.
Proof.
  split; [|reflexivity].
  apply (Prepare_fail_fast (collaborators := Example.failing_pass) 3
           Example.this Example.built3 Example.pass_failure false
           Example.built3 eq_refl).
  reflexivity.
Defined.

Lemma observing_masks_quiet :
  quiet_hook (PrepareNodePreAction (Collaborators := Example.observing_masks))
  /\ quiet_hook
       (PrepareNodePostAction (Collaborators := Example.observing_masks)).
Proof. split; intros a w; repeat split. Qed.

Lemma repr_storeXY :
  repr Example.storeXY (Some Example.X)
    (Node Example.X ([] ++ Node Example.Y [] :: [])).
Proof.
  eapply repr_node; [reflexivity|]. repeat constructor.
  eapply repr_node; [reflexivity|]. constructor.
Qed.

Lemma PrepareNode_clears_by_value_witness :
  PrepareNode (collaborators := Example.observing_masks) 2 Example.this
      (Some Example.X) Example.worldXY
    = Some (Status_OK,
            {| tree := ExecutionTree_new; ops := Example.storeXY;
               ext := [3; 2] |}) /\
  exists w2,
    PrepareNode (collaborators := Example.observing_masks) 1 Example.this
        (Some Example.Y) (set_prepare_flags 3 Example.worldXY)
      = Some (Status_OK, w2) /\
    Z.testbit (prepare_flags_ (tree w2)) 0 = false /\
    Z.testbit (prepare_flags_ (tree w2)) 1 = true.
Proof.
  split; [vm_compute; reflexivity|].
  destruct (PrepareNode_clears_by_value
              (collaborators := Example.observing_masks) 1 Example.this
              Example.X [] Example.Y [] [] Example.Y Example.worldXY 0)
    as (w1 & w2 & w3 & E1 & E2 & _ & _ & _ & _ & B2 & _ & F2 & _).
  - exact (proj1 observing_masks_quiet).
  - exact (proj2 observing_masks_quiet).
  - exact repr_storeXY.
  - vm_compute. lia.
  - cbn. left.
  - lia.
  - reflexivity.
  - reflexivity.
  - cbn [roots map for_each_ok] in E1. unfold RETURN in E1.
    injection E1 as <-. exists w2. split; [exact E2|].
    split; [exact F2|]. rewrite (B2 1) by lia. reflexivity.
Defined.

(** ** The stacks of the prepare phase *)

Lemma PopFromEOEOpStack_empty t :
  eoe_stack_ t = [] -> PopFromEOEOpStack t = (None, t).
Proof. unfold PopFromEOEOpStack. by intros ->. Qed.

Lemma PopFromEOEOpStack_top t x st :
  eoe_stack_ t = x :: st -> PopFromEOEOpStack t = (x, with_eoe_stack st t).
Proof. unfold PopFromEOEOpStack. by intros ->. Qed.

Lemma PopFromSamplerStack_empty t :
  sampler_stack_ t = [] -> PopFromSamplerStack t = (None, t).
Proof. unfold PopFromSamplerStack. by intros ->. Qed.

Lemma PopFromSamplerStack_top t x st :
  sampler_stack_ t = x :: st ->
  PopFromSamplerStack t = (x, with_sampler_stack st t).
Proof. unfold PopFromSamplerStack. by intros ->. Qed.

(** X2.  Popping never fails: [n] pops return the [n] topmost pointers, top
    first, and then [nullptr] for every pop beyond the bottom of the stack;
    what is left is the stack without its [n] topmost elements, so an empty
    stack stays empty.  Nothing else of the tree changes. *)
Theorem stacks_pop_underflow (n : nat) (t : ExecutionTree) :
  pop_n PopFromEOEOpStack n t
    = (take n (eoe_stack_ t)
         ++ replicate (n - length (eoe_stack_ t)) None,
       with_eoe_stack (drop n (eoe_stack_ t)) t) /\
  pop_n PopFromSamplerStack n t
    = (take n (sampler_stack_ t)
         ++ replicate (n - length (sampler_stack_ t)) None,
       with_sampler_stack (drop n (sampler_stack_ t)) t).
Proof.
  split.
  - revert t. induction n as [|n IH]; intros t; [by destruct t|].
    cbn [pop_n]. destruct (eoe_stack_ t) as [|x st] eqn:E.
    + rewrite (PopFromEOEOpStack_empty t E), IH, E. by destruct n.
    + rewrite (PopFromEOEOpStack_top t x st E), IH. by destruct t.
  - revert t. induction n as [|n IH]; intros t; [by destruct t|].
    cbn [pop_n]. destruct (sampler_stack_ t) as [|x st] eqn:E.
    + rewrite (PopFromSamplerStack_empty t E), IH, E. by destruct n.
    + rewrite (PopFromSamplerStack_top t x st E), IH. by destruct t.
Qed.

(** ** Worker launch *)

Section WorkerProperties.

Context {Func Body : Type}.
Variable answer : list (string * Body) -> string * Body -> Status.
Variable bind : Func -> Z -> Body.

Lemma worker_tasks_snoc func (i : Z) :
  0 <= i ->
  worker_tasks bind func 0 (i + 1)
    = worker_tasks bind func 0 i ++ [("Parallel Op Worker", bind func i)].
Proof.
  intros Hi. unfold worker_tasks. rewrite seqZ_app by lia.
  rewrite map_app. f_equal.
Qed.

(** The loop at index [i], when the workers below [i] were accepted and the
    worker [k] is the first that is refused. *)
Lemma LaunchWorkers_loop_refused func g (k : Z) :
  (forall j, 0 <= j < k ->
     IsOk (answer (g ++ worker_tasks bind func 0 j)
             ("Parallel Op Worker", bind func j)) = true) ->
  IsOk (answer (g ++ worker_tasks bind func 0 k)
          ("Parallel Op Worker", bind func k)) = false ->
  forall (count : nat) (i : Z),
    0 <= i <= k -> k < i + Z.of_nat count ->
    LaunchWorkers_loop (logging_CreateTask answer) bind count i func
        (g ++ worker_tasks bind func 0 i)
      = (answer (g ++ worker_tasks bind func 0 k)
           ("Parallel Op Worker", bind func k),
         g ++ worker_tasks bind func 0 k).
Proof.
  intros Hacc Hrej. induction count as [|count IH]; intros i Hi Hk; [lia|].
  cbn [LaunchWorkers_loop]. unfold logging_CreateTask at 1.
  destruct (decide (i = k)) as [->|Hne].
  - rewrite Hrej. cbv beta iota zeta. by rewrite Hrej.
  - rewrite Hacc by lia. cbv beta iota zeta. rewrite Hacc by lia.
    rewrite <- app_assoc, <- worker_tasks_snoc by lia.
    apply IH; lia.
Qed.

(** The loop when every worker is accepted. *)
Lemma LaunchWorkers_loop_accepted func :
  (forall g t, IsOk (answer g t) = true) ->
  forall (count : nat) (i : Z) g,
    LaunchWorkers_loop (logging_CreateTask answer) bind count i func g
      = (Status_OK, g ++ worker_tasks bind func i (Z.of_nat count)).
Proof.
  intros Hacc. induction count as [|count IH]; intros i g.
  - cbn. unfold worker_tasks. by rewrite seqZ_nil, app_nil_r by lia.
  - cbn [LaunchWorkers_loop]. unfold logging_CreateTask at 1.
    rewrite Hacc. cbv beta iota zeta. rewrite Hacc, IH, <- app_assoc.
    unfold worker_tasks.
    rewrite (seqZ_cons i (Z.of_nat (S count))) by lia. cbn [map app].
    replace (Z.succ i) with (i + 1) by lia.
    by replace (Z.pred (Z.of_nat (S count))) with (Z.of_nat count) by lia.
Qed.

(** X3.  [LaunchWorkers(num_workers, func)] on a task group that accepts
    every task succeeds and adds the tasks of the workers
    0, 1, ..., [num_workers - 1] in this order, each named
    "Parallel Op Worker" and bound to [func] and its index; with
    [num_workers] zero or negative it asks for nothing and succeeds, whatever
    the task group would answer. *)
Theorem LaunchWorkers_all (num_workers : Z) func g :
  (forall g t, IsOk (answer g t) = true) ->
  LaunchWorkers (logging_CreateTask answer) bind num_workers func g
    = (Status_OK, g ++ worker_tasks bind func 0 num_workers) /\
  (forall (answer' : list (string * Body) -> string * Body -> Status) n,
     n <= 0 ->
     LaunchWorkers (logging_CreateTask answer') bind n func g = (Status_OK, g)).
Proof.
  intros Hacc. split.
  - unfold LaunchWorkers. rewrite (LaunchWorkers_loop_accepted func Hacc).
    do 2 f_equal. unfold worker_tasks.
    destruct (decide (0 <= num_workers)).
    + by rewrite Z2Nat.id.
    + by rewrite !seqZ_nil by lia.
  - intros answer' n Hn. unfold LaunchWorkers.
    replace (Z.to_nat n) with 0%nat by lia. reflexivity.
Qed.

(** X4.  [LaunchWorkers] stops at the first refusal: when the task group
    accepts the workers 0 to [k - 1] and refuses the worker [k], with
    [k < num_workers], the call returns the failure of that request; the
    workers before [k] stay in the task group and no worker after [k] is
    asked for. *)
Theorem LaunchWorkers_first_refusal (num_workers k : Z) func g :
  0 <= k < num_workers ->
  (forall j, 0 <= j < k ->
     IsOk (answer (g ++ worker_tasks bind func 0 j)
             ("Parallel Op Worker", bind func j)) = true) ->
  IsOk (answer (g ++ worker_tasks bind func 0 k)
          ("Parallel Op Worker", bind func k)) = false ->
  LaunchWorkers (logging_CreateTask answer) bind num_workers func g
    = (answer (g ++ worker_tasks bind func 0 k)
         ("Parallel Op Worker", bind func k),
       g ++ worker_tasks bind func 0 k).
Proof.
  intros Hk Hacc Hrej. unfold LaunchWorkers.
  pose proof (LaunchWorkers_loop_refused func g k Hacc Hrej
                (Z.to_nat num_workers) 0) as H.
  unfold worker_tasks at 1 in H. rewrite seqZ_nil in H by lia.
  cbn [map] in H. rewrite app_nil_r in H. apply H; lia.
Qed.

End WorkerProperties.

(** ** What the printer writes *)

Lemma append_assoc (s1 s2 s3 : string) :
  (s1 +:+ s2) +:+ s3 = s1 +:+ (s2 +:+ s3).
Proof.
  induction s1 as [|c s1 IH]; [done|].
  change (String c ((s1 +:+ s2) +:+ s3) = String c (s1 +:+ (s2 +:+ s3))).
  by rewrite IH.
Qed.

Lemma append_empty_r (s : string) : s +:+ "" = s.
Proof.
  induction s as [|c s IH]; [done|].
  change (String c (s +:+ "") = String c s). by rewrite IH.
Qed.

Lemma length_append (s1 s2 : string) :
  String.length (s1 +:+ s2) = (String.length s1 + String.length s2)%nat.
Proof.
  induction s1 as [|c s1 IH]; [done|].
  change (S (String.length (s1 +:+ s2))
          = S (String.length s1 + String.length s2)). by rewrite IH.
Qed.

Lemma concat_strings_app l1 l2 :
  concat_strings (l1 ++ l2) = concat_strings l1 +:+ concat_strings l2.
Proof.
  induction l1 as [|x l1 IH]; [done|].
  change (x +:+ concat_strings (l1 ++ l2)
          = (x +:+ concat_strings l1) +:+ concat_strings l2).
  by rewrite IH, append_assoc.
Qed.

Section PrintingProperties.

Variable op_summary : addr -> DatasetOp -> string.
Variable op_details : addr -> DatasetOp -> string.

Lemma PrintNode_out_details h s : forall (fuel : nat) p indent last out,
  repr h p s ->
  (height s <= fuel)%nat ->
  PrintNode_out op_summary op_details fuel h p indent last true out
    = Some (out +:+ concat_strings (map (written op_details h) (preorder s))).
Proof.
  induction s as [a cs IH] using Shape_ind'.
  intros fuel p indent last out Hrep Hfuel.
  inversion Hrep as [a' o cs' Ho Hcs]; subst.
  destruct fuel as [|fuel]; [cbn [height] in Hfuel; lia|].
  cbn [height] in Hfuel. apply le_S_n in Hfuel.
  cbn [PrintNode_out negb preorder map concat_strings fold_right]. rewrite Ho.
  unfold written at 1. rewrite Ho. rewrite <- append_assoc.
  generalize (out +:+ op_details a o). clear Ho Hrep.
  revert Hfuel. generalize (child_ o) Hcs. clear Hcs.
  induction IH as [|c cs Hc _ IHcs]; intros ps Hps Hfuel out1.
  - inversion Hps; subst. cbn. by rewrite append_empty_r.
  - inversion Hps as [|q c' qs cs' Hq Hqs]; subst.
    apply height_child_le in Hfuel as [Hh Hm].
    cbn [for_each_last flat_map]. rewrite (Hc fuel q _ _ _ Hq Hh).
    rewrite (IHcs qs Hqs Hm).
    by rewrite map_app, concat_strings_app, append_assoc.
Qed.

Lemma PrintNode_out_summary h s : forall (fuel : nat) p indent last out,
  repr h p s ->
  (height s <= fuel)%nat ->
  PrintNode_out op_summary op_details fuel h p indent last false out
    = Some (out +:+ concat_strings
                      (map (summary_line op_summary h)
                         (outline indent last s))).
Proof.
  induction s as [a cs IH] using Shape_ind'.
  intros fuel p indent last out Hrep Hfuel.
  inversion Hrep as [a' o cs' Ho Hcs]; subst.
  destruct fuel as [|fuel]; [cbn [height] in Hfuel; lia|].
  cbn [height] in Hfuel. apply le_S_n in Hfuel.
  cbn [PrintNode_out negb outline map concat_strings fold_right]. rewrite Ho.
  unfold summary_line at 1, written at 1. cbn [fst snd]. rewrite Ho.
  rewrite <- (append_assoc out).
  replace (out +:+ (indent +:+ "+- ") +:+ op_summary a o)
    with (((out +:+ indent) +:+ "+- ") +:+ op_summary a o)
    by (by rewrite !append_assoc).
  generalize (((out +:+ indent) +:+ "+- ") +:+ op_summary a o).
  generalize (indent +:+ (if last then "    " else "|   ")).
  clear Ho Hrep. revert Hfuel. generalize (child_ o) Hcs. clear Hcs.
  induction IH as [|c cs Hc _ IHcs]; intros ps Hps Hfuel ind out1.
  - inversion Hps; subst. cbn. by rewrite append_empty_r.
  - inversion Hps as [|q c' qs cs' Hq Hqs]; subst.
    apply height_child_le in Hfuel as [Hh Hm].
    cbn [for_each_last flat_map_last].
    assert (Hlast : match qs with [] => true | _ :: _ => false end
                    = match cs with [] => true | _ :: _ => false end).
    { by inversion Hqs. }
    rewrite Hlast, (Hc fuel q _ _ _ Hq Hh), (IHcs qs Hqs Hm).
    by rewrite map_app, concat_strings_app, append_assoc.
Qed.

Lemma outline_preorder s : forall indent last,
  map snd (outline indent last s) = preorder s.
Proof.
  induction s as [a cs IH] using Shape_ind'. intros indent last.
  cbn [outline preorder map snd]. f_equal.
  generalize (indent +:+ (if last then "    " else "|   ")).
  induction IH as [|c cs Hc _ IHcs]; intros ind; [done|].
  cbn [flat_map_last flat_map]. by rewrite map_app, Hc, IHcs.
Qed.

Lemma levels_ge s : forall (d k : nat), In k (levels d s) -> (d <= k)%nat.
Proof.
  induction s as [b bs IHb] using Shape_ind'. intros d k. cbn [levels].
  intros [<-|Hk]; [lia|]. apply in_flat_map in Hk as (c & Hc & Hk).
  rewrite Forall_forall in IHb. apply list_elem_of_In in Hc.
  specialize (IHb c Hc (S d) k Hk). lia.
Qed.

Lemma outline_levels s : forall indent last (d : nat),
  map (fun l => String.length (fst l)) (outline indent last s)
    = map (fun k => (String.length indent + 4 * (k - d))%nat) (levels d s).
Proof.
  induction s as [a cs IH] using Shape_ind'. intros indent last d.
  cbn [outline levels map fst]. f_equal; [lia|].
  assert (Hind : String.length (indent +:+ (if last then "    " else "|   "))
                 = (String.length indent + 4)%nat).
  { rewrite length_append. by destruct last. }
  revert Hind. generalize (indent +:+ (if last then "    " else "|   ")).
  intros ind Hind.
  induction IH as [|c cs Hc _ IHcs]; [done|].
  cbn [flat_map_last flat_map]. rewrite !map_app, (Hc _ _ (S d)), IHcs.
  f_equal. apply map_ext_in. intros k Hk. rewrite Hind.
  apply levels_ge in Hk. lia.
Qed.

(** X5.  [PrintNode] with [detailed] set writes, for a tree of shape [s]
    in the store, what the operators write of themselves, one after the
    other in preorder: a node before its children, the children in stored
    order.  The indentation and the [last] flag play no part. *)
Theorem PrintNode_details_preorder h p s (fuel : nat) indent last out :
  repr h p s ->
  (height s <= fuel)%nat ->
  PrintNode_out op_summary op_details fuel h p indent last true out
    = Some (out +:+ concat_strings (map (written op_details h) (preorder s)))
  /\ PrintNode_out op_summary op_details fuel h p indent last true out
     = PrintNode_out op_summary op_details fuel h p "" true true out.
Proof.
  intros Hrep Hfuel.
  by rewrite !(PrintNode_out_details h s fuel p _ _ out Hrep Hfuel).
Qed.

(** X6.  [PrintNode] without [detailed] writes one entry for every node of
    the tree, in preorder: the indentation, the mark "+- " and what the
    operator writes of itself.  The indentation of a node is that of the
    call and four more columns for every level below the node the call
    started from. *)
Theorem PrintNode_summary_outline h p s (fuel : nat) indent last out :
  repr h p s ->
  (height s <= fuel)%nat ->
  PrintNode_out op_summary op_details fuel h p indent last false out
    = Some (out +:+ concat_strings
                      (map (summary_line op_summary h)
                         (outline indent last s))) /\
  map snd (outline indent last s) = preorder s /\
  map (fun l => String.length (fst l)) (outline indent last s)
    = map (fun k => (String.length indent + 4 * k)%nat) (levels 0 s).
Proof.
  intros Hrep Hfuel. split; [|split].
  - by apply PrintNode_out_summary.
  - apply outline_preorder.
  - rewrite (outline_levels s indent last 0). apply map_ext. intros k.
    by rewrite Nat.sub_0_r.
Qed.

(** X7.  [Print(out, op)] starts from [op], or from the root of the tree
    when [op] is null.  For a tree of shape [s] there it writes the heading
    of the summary, the summary, the heading of the details and the
    details, in this order, after what the stream held. *)
Theorem Print_output {Ext : Type} (w : World Ext) (op : shared_ptr) s
    (fuel : nat) out :
  repr (ops w) (match op with None => root_ (tree w) | Some _ => op end) s ->
  (height s <= fuel)%nat ->
  Print_out op_summary op_details fuel w op out
    = Some (out
            +:+ ("Execution tree summary:" +:+ newline)
            +:+ ("-----------------------" +:+ newline)
            +:+ concat_strings
                  (map (summary_line op_summary (ops w)) (outline "" true s))
            +:+ (newline +:+ "Execution tree operator details:" +:+ newline)
            +:+ ("--------------------------------" +:+ newline)
            +:+ concat_strings
                  (map (written op_details (ops w)) (preorder s))).
Proof.
  intros Hrep Hfuel. unfold Print_out.
  rewrite (PrintNode_out_summary _ s fuel _ _ _ _ Hrep Hfuel).
  rewrite (PrintNode_out_details _ s fuel _ _ _ _ Hrep Hfuel).
  f_equal. by rewrite !append_assoc.
Qed.

End PrintingProperties.

(** ** More on association, preparation and launch *)

Section MoreProperties.

Context {Ext : Type} {collaborators : Collaborators Ext}.
Implicit Types (w : World Ext) (this : tree_ptr) (op a : addr).

(** *** Association *)

(** X8.  [AssociateNode] on an operator that is not yet of this tree, when
    the tree is neither Init nor Building (that is, when it is Prepare,
    Ready or Executing), fails with the unexpected-status failure whose
    message gives the observed state and the two expected states, and
    changes nothing: the operator gets no id and the counter stays. *)
Theorem AssociateNode_invalid_state this op w o :
  ops w !! op = Some o ->
  tree_ o <> Some this ->
  tree_state_ (tree w) <> kDeTStateInit ->
  tree_state_ (tree w) <> kDeTStateBuilding ->
  exists s,
    AssociateNode this op w = Some (s, w) /\
    IsOk s = false /\
    InvalidState "adding a node" (tree_state_ (tree w))
      (" Expected states: " +:+ to_string (TreeState_to_int kDeTStateInit)
       +:+ " or " +:+ to_string (TreeState_to_int kDeTStateBuilding)) s.
Proof.
  intros Ho Hnew H1 H2. unfold AssociateNode. rewrite Ho.
  destruct (decide (tree_ o = Some this)); [contradiction|].
  destruct (decide _) as [_|Hn]; [|exfalso; apply Hn; by split].
  eexists. split; [reflexivity|]. split; [reflexivity|]. split; reflexivity.
Qed.

(** X9.  [AssignRoot] on a Building tree succeeds for every operator of the
    store, makes it the root (replacing a root assigned before) and leaves
    the tree Building.  An operator whose id is still the invalid id, and
    which is not of this tree, is associated on the way: it takes the
    counter as its id and the counter is incremented (by one below the
    largest 32-bit value, where the increment wraps).  An operator with any
    other id is not looked at further: nothing but the root changes, also
    when the operator is not of this tree. *)
Theorem AssignRoot_building this op w o :
  tree_state_ (tree w) = kDeTStateBuilding ->
  ops w !! op = Some o ->
  exists w',
    AssignRoot this op w = Some (Status_OK, w') /\
    root_ (tree w') = Some op /\
    tree_state_ (tree w') = kDeTStateBuilding /\
    (operator_id_ o <> kInvalidOperatorId ->
       w' = with_tree (with_root (Some op) (tree w)) w) /\
    (operator_id_ o = kInvalidOperatorId -> tree_ o <> Some this ->
       ops w' !! op = Some (associated this (id_count_ (tree w)) o) /\
       id_count_ (tree w') = int32_wrap (id_count_ (tree w) + 1) /\
       (int32_min <= id_count_ (tree w) < int32_max ->
          id_count_ (tree w') = id_count_ (tree w) + 1) /\
       (forall b, b <> op -> ops w' !! b = ops w !! b)).
Proof.
  intros Hst Ho. unfold AssignRoot.
  destruct (decide _) as [Hn|_]; [contradiction|]. rewrite Ho.
  unfold and_then. destruct (decide (operator_id_ o = kInvalidOperatorId))
    as [Hid|Hid].
  - destruct (decide (tree_ o = Some this)) as [Ht|Ht].
    + unfold AssociateNode. rewrite Ho.
      destruct (decide _); [|contradiction]. cbn [IsOk Status_OK get_code].
      eexists. split; [reflexivity|]. cbn. repeat split; try done.
    + rewrite (AssociateNode_new_wrap this op w o Ho Ht (or_intror Hst)).
      cbn [IsOk Status_OK get_code].
      eexists. split; [reflexivity|].
      cbn [with_tree with_root tree ops root_ tree_state_ id_count_
           with_id_count with_tree_state].
      split; [done|]. split; [done|].
      split; [done|]. intros _ _. split; [apply lookup_insert_eq|].
      split; [done|]. split; [intros Hc; apply int32_wrap_id; lia|].
      intros b Hb. by apply lookup_insert_ne.
  - unfold RETURN. cbn [IsOk Status_OK get_code].
    eexists. split; [reflexivity|]. cbn. rewrite Hst. repeat split; done.
Qed.

Lemma AssociateNode_ids_inv this op w s w' :
  ids_inv this w ->
  id_count_ (tree w) < int32_max ->
  AssociateNode this op w = Some (s, w') ->
  ids_inv this w' /\
  id_count_ (tree w) <= id_count_ (tree w') <= id_count_ (tree w) + 1.
Proof.
  intros Hinv Hmax. pose proof Hinv as (Hc & Hlt & Huniq).
  unfold AssociateNode.
  destruct (ops w !! op) as [o|] eqn:Ho; [|done].
  destruct (decide _); [intros [= _ <-]; split; [done | lia]|].
  destruct (decide _); [intros [= _ <-]; split; [done | lia]|].
  intros [= _ <-]. unfold ids_inv. cbn [tree ops id_count_ with_id_count
                                         with_tree_state].
  rewrite int32_wrap_id by (unfold int32_min; lia).
  split; [|lia]. split; [lia|]. split.
  - intros a oa Ha Hta. destruct (decide (a = op)) as [->|Hne].
    + rewrite lookup_insert_eq in Ha. injection Ha as <-. cbn. lia.
    + rewrite lookup_insert_ne in Ha by done.
      specialize (Hlt a oa Ha Hta). lia.
  - intros a b oa ob Ha Hb Hta Htb Heq.
    destruct (decide (a = op)) as [->|Hna], (decide (b = op)) as [->|Hnb];
      [done| | |].
    + rewrite lookup_insert_eq in Ha. injection Ha as <-.
      rewrite lookup_insert_ne in Hb by done.
      specialize (Hlt b ob Hb Htb). cbn in Heq. lia.
    + rewrite lookup_insert_eq in Hb. injection Hb as <-.
      rewrite lookup_insert_ne in Ha by done.
      specialize (Hlt a oa Ha Hta). cbn in Heq. lia.
    + rewrite lookup_insert_ne in Ha, Hb by done. by eapply Huniq.
Qed.

Lemma AssignRoot_ids_inv this op w s w' :
  ids_inv this w ->
  id_count_ (tree w) < int32_max ->
  AssignRoot this op w = Some (s, w') ->
  ids_inv this w'.
Proof.
  intros Hinv Hmax. unfold AssignRoot.
  destruct (decide _); [by intros [= _ <-]|].
  destruct (ops w !! op) as [o|]; [|done]. unfold and_then.
  destruct (decide _).
  - destruct (AssociateNode this op w) as [[s1 w1]|] eqn:E; [|done].
    apply (AssociateNode_ids_inv _ _ _ _ _ Hinv Hmax) in E as [E _].
    destruct (IsOk s1); intros [= _ <-]; exact E.
  - unfold RETURN. cbn. by intros [= _ <-].
Qed.

(** X10.  The ids stay sound while a tree is built: if the operators of this
    tree carry ids that are not negative, below the counter and pairwise
    different, this still holds after [AssociateNode] and after
    [AssignRoot], whatever they were called on and whatever they returned,
    as long as the counter was below the largest 32-bit value; it holds to
    begin with when the counter is 0 and no operator of the store is of
    this tree; so it holds after every sequence of calls that the counter
    has room for.  Under it no operator of the tree carries the invalid id.
    The bound is needed: at the largest 32-bit value the association of a
    new operator succeeds, the counter wraps to the smallest value, and the
    ids are no longer below the counter. *)
Theorem ids_stay_sound this :
  (forall w,
     id_count_ (tree w) = 0 ->
     (forall a o, ops w !! a = Some o -> tree_ o <> Some this) ->
     ids_inv this w) /\
  (forall w op s w',
     ids_inv this w -> id_count_ (tree w) < int32_max ->
     AssociateNode this op w = Some (s, w') ->
     ids_inv this w') /\
  (forall w op s w',
     ids_inv this w -> id_count_ (tree w) < int32_max ->
     AssignRoot this op w = Some (s, w') ->
     ids_inv this w') /\
  (forall w nodes s w',
     ids_inv this w ->
     id_count_ (tree w) + Z.of_nat (length nodes) <= int32_max ->
     AssociateNodes this nodes w = Some (s, w') ->
     ids_inv this w') /\
  (forall w a o,
     ids_inv this w -> ops w !! a = Some o -> tree_ o = Some this ->
     operator_id_ o <> kInvalidOperatorId) /\
  (forall w op o,
     id_count_ (tree w) = int32_max ->
     tree_state_ (tree w) = kDeTStateInit
       \/ tree_state_ (tree w) = kDeTStateBuilding ->
     ops w !! op = Some o -> tree_ o <> Some this ->
     exists w',
       AssociateNode this op w = Some (Status_OK, w') /\
       ops w' !! op = Some (associated this int32_max o) /\
       id_count_ (tree w') = int32_min /\
       ~ ids_inv this w').
Proof.
  split; [|split; [|split; [|split; [|split]]]].
  - intros w Hc Hnone. split; [lia|]. split.
    + intros a o Ha Ht. by destruct (Hnone a o Ha).
    + intros a b oa ob Ha _ Ht. by destruct (Hnone a oa Ha).
  - intros w op s w' Hinv Hmax E.
    by apply (AssociateNode_ids_inv _ _ _ _ _ Hinv Hmax) in E as [E _].
  - intros w op s w'. apply AssignRoot_ids_inv.
  - intros w nodes. revert w. unfold AssociateNodes.
    induction nodes as [|a l IH]; intros w s w' Hinv Hmax; cbn [for_each_ok].
    + by intros [= _ <-].
    + unfold and_then. cbn [length] in Hmax.
      destruct (AssociateNode this a w) as [[s1 w1]|] eqn:E; [|done].
      apply (AssociateNode_ids_inv _ _ _ _ _ Hinv) in E as [E Hstep];
        [|lia].
      destruct (IsOk s1); [apply IH; [exact E | lia] | by intros [= _ <-]].
  - intros w a o (_ & Hlt & _) Ha Ht. specialize (Hlt a o Ha Ht).
    unfold kInvalidOperatorId. lia.
  - intros w op o Hc Hst Ho Hnew. eexists.
    split; [exact (AssociateNode_new_wrap this op w o Ho Hnew Hst)|].
    cbn [tree ops id_count_ with_id_count with_tree_state].
    rewrite Hc. split; [apply lookup_insert_eq|].
    split; [exact int32_wrap_max|].
    intros (Hneg & _). cbn [tree id_count_ with_id_count] in Hneg.
    rewrite int32_wrap_max in Hneg. unfold int32_min in Hneg. lia.
Qed.

Lemma elem_of_new_nodes this h nodes a :
  a ∈ new_nodes this h nodes <-> a ∈ nodes /\ is_new this h a = true.
Proof.
  unfold new_nodes. rewrite elem_of_list_to_set, !list_elem_of_In.
  apply filter_In.
Qed.

(** X11.  A builder may call [AssociateNode] on any sequence of operators of
    the store, with repeats and with operators that are of this tree
    already: on a tree in state Init or Building whose counter has room for
    the operators that are new to the tree (the counter plus their number
    does not exceed the largest 32-bit value), every call succeeds, the
    counter grows by the number of different operators of the sequence that
    were new to the tree, every operator of the sequence is of this tree
    afterwards, and the operators outside the sequence are untouched. *)
Theorem AssociateNodes_counts_new this nodes : forall w,
  tree_state_ (tree w) = kDeTStateInit
    \/ tree_state_ (tree w) = kDeTStateBuilding ->
  (forall a, a ∈ nodes -> is_Some (ops w !! a)) ->
  int32_min <= id_count_ (tree w) ->
  id_count_ (tree w) + Z.of_nat (size (new_nodes this (ops w) nodes))
    <= int32_max ->
  exists w',
    AssociateNodes this nodes w = Some (Status_OK, w') /\
    id_count_ (tree w')
      = id_count_ (tree w) + Z.of_nat (size (new_nodes this (ops w) nodes)) /\
    (forall a, a ∈ nodes ->
       exists o, ops w' !! a = Some o /\ tree_ o = Some this) /\
    (forall a, a ∉ nodes -> ops w' !! a = ops w !! a).
Proof.
  unfold AssociateNodes.
  induction nodes as [|a l IH]; intros w Hst Hall Hlo Hhi.
  - exists w. cbn. split; [done|]. split.
    + unfold new_nodes. cbn. rewrite size_empty. lia.
    + split; [|done]. intros a Ha. by apply elem_of_nil in Ha.
  - destruct (Hall a) as [o Ho]; [left|].
    assert (Hall' : forall b, b ∈ l -> is_Some (ops w !! b)).
    { intros b Hb. apply Hall. by right. }
    cbn [for_each_ok]. unfold and_then at 1.
    destruct (decide (tree_ o = Some this)) as [Ht|Ht].
    + assert (Hstep : AssociateNode this a w = Some (Status_OK, w)).
      { unfold AssociateNode. rewrite Ho. by destruct (decide _). }
      rewrite Hstep. cbn [IsOk Status_OK get_code].
      assert (Hsets : new_nodes this (ops w) (a :: l)
                      = new_nodes this (ops w) l).
      { apply set_eq. intros b.
        rewrite !elem_of_new_nodes, elem_of_cons.
        split; [|intros [Hb Hn]; split; [by right | done]].
        intros [[Hba|Hb] Hn]; [|done].
        subst b. unfold is_new in Hn. rewrite Ho in Hn.
        apply bool_decide_eq_true in Hn. done. }
      rewrite Hsets in Hhi |- *.
      destruct (IH w Hst Hall' Hlo Hhi) as (w' & Hrun & Hcnt & Hof & Hframe).
      exists w'. split; [exact Hrun|]. split; [exact Hcnt|split].
      * intros b Hb. apply elem_of_cons in Hb as [->|Hb]; [|by apply Hof].
        destruct (decide (a ∈ l)) as [Hin|Hnin]; [by apply Hof|].
        exists o. by rewrite (Hframe a Hnin).
      * intros b Hb. apply not_elem_of_cons in Hb as [_ Hb]. by apply Hframe.
    + set (w1 := {| tree := with_id_count (id_count_ (tree w) + 1)
                              (with_tree_state kDeTStateBuilding (tree w));
                    ops := <[a := associated this (id_count_ (tree w)) o]>
                             (ops w);
                    ext := ext w |}).
      assert (Hother : forall b, b <> a -> ops w1 !! b = ops w !! b).
      { intros b Hb. cbn. by apply lookup_insert_ne. }
      assert (Hsets : new_nodes this (ops w) (a :: l)
                      = {[a]} ∪ new_nodes this (ops w1) l).
      { apply set_eq. intros b.
        rewrite elem_of_union, elem_of_singleton, !elem_of_new_nodes,
          elem_of_cons.
        assert (Hnew_a : is_new this (ops w) a = true).
        { unfold is_new. rewrite Ho. by apply bool_decide_eq_true. }
        assert (Hold_a : is_new this (ops w1) a = false).
        { unfold is_new. cbn. rewrite lookup_insert_eq.
          apply bool_decide_eq_false. intros H. by apply H. }
        destruct (decide (b = a)) as [->|Hne].
        - split; [by left|]. intros _. split; [by left | done].
        - assert (is_new this (ops w1) b = is_new this (ops w) b) as ->.
          { unfold is_new. by rewrite Hother. }
          split.
          + intros [[Hba|Hb] Hn]; [done | by right].
          + intros [Hba|[Hb Hn]]; [done | split; [by right | done]]. }
      assert (Hdisj : a ∉ new_nodes this (ops w1) l).
      { rewrite elem_of_new_nodes. intros [_ Hn]. unfold is_new in Hn.
        cbn in Hn. rewrite lookup_insert_eq in Hn.
        apply bool_decide_eq_true in Hn. by apply Hn. }
      assert (Hsize : size (new_nodes this (ops w) (a :: l))
                      = S (size (new_nodes this (ops w1) l))).
      { rewrite Hsets, size_union by set_solver. by rewrite size_singleton. }
      rewrite Hsize in Hhi |- *.
      rewrite (AssociateNode_new this a w o Ho Ht Hst) by lia.
      cbn [IsOk Status_OK get_code]. fold w1.
      destruct (IH w1) as (w' & Hrun & Hcnt & Hof & Hframe).
      { by right. }
      { intros b Hb. destruct (decide (b = a)) as [->|Hne].
        - cbn. rewrite lookup_insert_eq. by eexists.
        - rewrite Hother by done. by apply Hall'. }
      { cbn [w1 tree id_count_ with_id_count]. lia. }
      { cbn [w1 tree id_count_ with_id_count]. lia. }
      exists w'. split; [exact Hrun|]. split; [|split].
      * rewrite Hcnt. cbn [w1 tree id_count_ with_id_count]. lia.
      * intros b Hb. apply elem_of_cons in Hb as [->|Hb]; [|by apply Hof].
        destruct (decide (a ∈ l)) as [Hin|Hnin]; [by apply Hof|].
        rewrite (Hframe a Hnin). cbn. rewrite lookup_insert_eq. by eexists.
      * intros b Hb. apply not_elem_of_cons in Hb as [Hne Hb].
        rewrite (Hframe b Hb). by apply Hother.
Qed.

(** *** Preparation *)

(** X12.  [PrepareDeprecated] on a tree that is not in state Prepare fails
    with the unexpected-status failure whose message gives the observed
    state and the expected state Prepare; the walk is not started, so no
    hook runs and the world is left as it was. *)
Theorem PrepareDeprecated_invalid_state (fuel : nat) this w :
  tree_state_ (tree w) <> kDeTStatePrepare ->
  exists s,
    PrepareDeprecated fuel this w = Some (s, w) /\
    IsOk s = false /\
    InvalidState "preparing the tree" (tree_state_ (tree w))
      (" Expected state: " +:+ to_string (TreeState_to_int kDeTStatePrepare)) s.
Proof.
  intros Hst. unfold PrepareDeprecated.
  destruct (decide _) as [_|H]; [|contradiction].
  eexists. split; [reflexivity|]. split; [reflexivity|]. split; reflexivity.
Qed.


(** X14.  [Prepare] on a well-formed tree: when the removal pass succeeds
    and leaves a tree of shape [s] under the root, and the hooks succeed
    and leave the operators and the mask alone, [Prepare] succeeds and
    leaves the tree Ready, whatever state it was in before; the operators
    are as the pass left them, and of the mask exactly the bits that some
    node of the tree declares have been cleared. *)
Theorem Prepare_ready (fuel : nat) this w s0 modified w1 s :
  RemovalPass this false w = (s0, modified, w1) ->
  IsOk s0 = true ->
  repr (ops w1) (root_ (tree w1)) s ->
  (height s <= fuel)%nat ->
  quiet_hook PrepareNodePreAction ->
  quiet_hook PrepareNodePostAction ->
  exists w',
    Prepare fuel this w = Some (Status_OK, w') /\
    tree_state_ (tree w') = kDeTStateReady /\
    ops w' = ops w1 /\
    forall F, 0 <= F < 32 ->
      Z.testbit (prepare_flags_ (tree w')) F
        = Z.testbit (prepare_flags_ (tree w1)) F && negb (declares s F).
Proof.
  intros Hpass Hok Hrep Hfuel Hpre Hpost.
  set (w2 := with_tree (with_tree_state kDeTStatePrepare (tree w1)) w1).
  destruct (PrepareNode_walk this Hpre Hpost s fuel (root_ (tree w2)) w2)
    as (w3 & Hwalk & Hops & Hbits); [exact Hrep | exact Hfuel |].
  exists (with_tree (with_tree_state kDeTStateReady (tree w3)) w3).
  split; [|split; [done|split; [exact Hops|exact Hbits]]].
  unfold Prepare, and_then at 1.
  rewrite PrepareTreePreAction_pass, Hpass, Hok.
  cbn [IsOk Status_OK get_code].
  unfold and_then at 1, Optimize at 1, RETURN at 1.
  cbn [IsOk Status_OK get_code].
  unfold and_then at 1, PrepareTreePostAction at 1.
  cbn [IsOk Status_OK get_code]. fold w2.
  unfold and_then at 1, PrepareDeprecated.
  destruct (decide _) as [Hn|_]; [by destruct Hn|].
  unfold and_then at 1. rewrite Hwalk. cbn [IsOk Status_OK get_code].
  reflexivity.
Qed.

(** X15.  [Prepare] does not look for a root: when the removal pass succeeds
    and leaves a tree without root (as on a tree on which [AssignRoot] was
    never called), the walk starts at the null pointer and dereferences it;
    [Prepare] has no defined outcome, in whatever state the tree was. *)
Theorem Prepare_without_root (fuel : nat) this w s0 modified w1 :
  RemovalPass this false w = (s0, modified, w1) ->
  IsOk s0 = true ->
  root_ (tree w1) = None ->
  Prepare fuel this w = None /\
  PrepareNode fuel this None w1 = None.
Proof.
  intros Hpass Hok Hroot.
  assert (Hnull : forall w0, PrepareNode fuel this None w0 = None)
    by (intros w0; by destruct fuel).
  split; [|apply Hnull].
  unfold Prepare, and_then at 1.
  rewrite PrepareTreePreAction_pass, Hpass, Hok.
  cbn [IsOk Status_OK get_code].
  unfold and_then at 1, Optimize at 1, RETURN at 1.
  cbn [IsOk Status_OK get_code].
  unfold and_then at 1, PrepareTreePostAction at 1.
  cbn [IsOk Status_OK get_code].
  unfold and_then at 1, PrepareDeprecated.
  destruct (decide _) as [Hn|_]; [by destruct Hn|].
  unfold and_then at 1. cbn [tree with_tree with_tree_state root_].
  by rewrite Hroot, Hnull.
Qed.

(** *** Launch *)

Lemma only_marked_refl h : only_marked h h.
Proof.
  intros a. destruct (h !! a) as [o|] eqn:E; [right | by left].
  exists o, o. repeat split; auto.
Qed.

Lemma only_marked_trans h1 h2 h3 :
  only_marked h1 h2 -> only_marked h2 h3 -> only_marked h1 h3.
Proof.
  intros H12 H23 a.
  destruct (H12 a) as [[E1 E2]|(o1 & o2 & E1 & E2 & (A1 & A2 & A3 & A4) & S12)],
           (H23 a) as [[F2 F3]|(o2' & o3 & F2 & F3 & (B1 & B2 & B3 & B4) & S23)];
    try congruence.
  - by left.
  - right. exists o1, o3. rewrite E2 in F2. injection F2 as <-.
    split; [done|]. split; [done|]. split.
    + repeat split; congruence.
    + destruct S23 as [S23|S23]; [|by right]. rewrite S23. exact S12.
Qed.

Lemma only_marked_insert h a o :
  h !! a = Some o -> only_marked h (<[a := set_state kDeOpRunning o]> h).
Proof.
  intros Ho b. destruct (decide (a = b)) as [->|Hne].
  - right. exists o, (set_state kDeOpRunning o). rewrite lookup_insert_eq.
    split; [done|]. split; [done|]. split; [by repeat split | by right].
  - rewrite lookup_insert_ne by done. apply only_marked_refl.
Qed.

Lemma repr_only_marked h h' s : forall p,
  only_marked h h' -> repr h p s -> repr h' p s.
Proof.
  induction s as [a cs IH] using Shape_ind'. intros p Hm Hrep.
  inversion Hrep as [a' o cs' Ho Hcs]; subst.
  destruct (Hm a) as [[E _]|(o1 & o' & E1 & E2 & (_ & _ & Hch & _) & _)];
    [congruence|].
  rewrite Ho in E1. injection E1 as <-.
  eapply repr_node; [exact E2|]. rewrite Hch. clear -IH Hcs Hm.
  revert IH. induction Hcs as [|q c qs cs Hq _ IHcs]; intros IH;
    [constructor|].
  inversion IH as [|? ? Hc Hrest]; subst.
  constructor; [by apply Hc | by apply IHcs].
Qed.

Lemma ids_inv_only_marked this w w' :
  only_marked (ops w) (ops w') ->
  id_count_ (tree w') = id_count_ (tree w) ->
  ids_inv this w -> ids_inv this w'.
Proof.
  intros Hm Hc (H0 & Hlt & Huniq).
  assert (Hback : forall a o', ops w' !! a = Some o' ->
            exists o, ops w !! a = Some o /\ tree_ o' = tree_ o /\
                      operator_id_ o' = operator_id_ o).
  { intros a o' Ha.
    destruct (Hm a) as [[_ E]|(o & o2 & E1 & E2 & (A1 & A2 & _) & _)];
      [congruence|].
    rewrite Ha in E2. injection E2 as <-. by exists o. }
  unfold ids_inv. rewrite Hc. split; [done|]. split.
  - intros a o' Ha Ht. destruct (Hback a o' Ha) as (o & Ho & Et & Ei).
    rewrite Ei. apply (Hlt a o Ho). congruence.
  - intros a b oa ob Ha Hb Hta Htb Heq.
    destruct (Hback a oa Ha) as (oa0 & Hoa & Eta & Eia).
    destruct (Hback b ob Hb) as (ob0 & Hob & Etb & Eib).
    apply (Huniq a b oa0 ob0 Hoa Hob); congruence.
Qed.

(** What a request to the task group can change: the list of tasks, at its
    end. *)
Lemma CreateAsyncTask_frame name f w s w' :
  CreateAsyncTask name f w = Some (s, w') ->
  ops w' = ops w /\ ext w' = ext w /\
  tg_ (tree w) `prefix_of` tg_ (tree w') /\
  same_members (tree w) (tree w') /\
  tree_state_ (tree w') = tree_state_ (tree w).
Proof.
  unfold CreateAsyncTask. destruct (IsOk _); intros [= _ <-]; cbn.
  - repeat split; try done. by apply prefix_app_r.
  - by repeat split.
Qed.

Lemma Launch_loop_frame itr : forall w s w',
  Launch_loop itr w = Some (s, w') ->
  only_marked (ops w) (ops w') /\ ext w' = ext w /\
  tg_ (tree w) `prefix_of` tg_ (tree w') /\
  same_members (tree w) (tree w') /\
  tree_state_ (tree w') = tree_state_ (tree w).
Proof.
  induction itr as [|[a|] itr IH]; intros w s w'; cbn [Launch_loop].
  - done.
  - destruct (ops w !! a) as [o|] eqn:Ho; [|done].
    pose proof (only_marked_insert _ _ _ Ho) as Hm.
    assert (Hrest : forall w1 s1 w1',
      ops w1 = <[a := set_state kDeOpRunning o]> (ops w) ->
      ext w1 = ext w ->
      tg_ (tree w) `prefix_of` tg_ (tree w1) ->
      same_members (tree w) (tree w1) ->
      tree_state_ (tree w1) = tree_state_ (tree w) ->
      Launch_loop itr w1 = Some (s1, w1') ->
      only_marked (ops w) (ops w1') /\ ext w1' = ext w /\
      tg_ (tree w) `prefix_of` tg_ (tree w1') /\
      same_members (tree w) (tree w1') /\
      tree_state_ (tree w1') = tree_state_ (tree w)).
    { intros w1 s1 w1' Eo Ee Ep (M1 & M2 & M3 & M4 & M5) Es Hrun.
      destruct (IH _ _ _ Hrun) as (Hm' & Ee' & Ep' & (N1 & N2 & N3 & N4 & N5)
                                   & Es').
      rewrite Eo in Hm'.
      split; [by eapply only_marked_trans|]. split; [congruence|].
      split; [by etrans|]. split; [|congruence].
      repeat split; congruence. }
    destruct (negb (inlined o)).
    + unfold and_then.
      destruct (CreateAsyncTask _ _ _) as [[s1 w1]|] eqn:E; [|done].
      apply CreateAsyncTask_frame in E as (Eo & Ee & Ep & Em & Es).
      cbn [with_ops ops ext tree] in Eo, Ee, Ep, Em, Es.
      destruct (IsOk s1).
      * by apply Hrest.
      * intros [= _ <-]. rewrite Eo. split; [exact Hm|].
        split; [exact Ee|]. split; [exact Ep|]. split; [exact Em | exact Es].
    + apply Hrest; cbn; by repeat split.
  - intros [= _ <-]. split; [apply only_marked_refl|]. by repeat split.
Qed.

(** X16.  Whatever [Launch] returns, of the operators it has changed
    nothing but the [state_] of some, which is now Running: ids,
    back-references, children and output connector sizes are as before, so
    the store holds the same trees and the ids stay sound.  Of the tree it
    has changed at most the state and the task group, to which it only ever
    adds at the end: the counter, the root, the mask and both stacks are as
    before. *)
Theorem Launch_touches_only_states (fuel : nat) this w s w' :
  Launch fuel this w = Some (s, w') ->
  only_marked (ops w) (ops w') /\
  tg_ (tree w) `prefix_of` tg_ (tree w') /\
  same_members (tree w) (tree w') /\
  (forall p sh, repr (ops w) p sh -> repr (ops w') p sh) /\
  (ids_inv this w -> ids_inv this w').
Proof.
  intros HL.
  assert (H : only_marked (ops w) (ops w') /\
              tg_ (tree w) `prefix_of` tg_ (tree w') /\
              same_members (tree w) (tree w')).
  { revert HL. unfold Launch.
    destruct (decide _).
    { intros [= _ <-]. split; [apply only_marked_refl|]. by repeat split. }
    destruct (Print fuel w); [|done]. unfold and_then at 1.
    assert (Hpre : forall s1 w1,
      (if IsProfilingEnable (ext w)
       then RETURN_IF_NOT_OK profiling_Initialize ;;
            CreateAsyncTask "Monitor Thread launched" RunMonitor
       else RETURN Status_OK) w = Some (s1, w1) ->
      ops w1 = ops w /\ tg_ (tree w) `prefix_of` tg_ (tree w1) /\
      same_members (tree w) (tree w1)).
    { intros s1 w1. destruct (IsProfilingEnable (ext w)).
      - unfold and_then, profiling_Initialize.
        destruct (ProfilingInitialize (ext w)) as [s0 e0].
        destruct (IsOk s0); [|intros [= _ <-]; by repeat split].
        intros E. apply CreateAsyncTask_frame in E as (Eo & _ & Ep & Em & _).
        cbn [tree ops ext] in Eo, Ep, Em.
        split; [exact Eo|]. split; [exact Ep | exact Em].
      - intros [= _ <-]. by repeat split. }
    destruct (if IsProfilingEnable (ext w) then _ else _) as [[s1 w1]|];
      [|done].
    destruct (Hpre s1 w1 eq_refl) as (Eo & Ep & (M1 & M2 & M3 & M4 & M5)).
    destruct (IsOk s1).
    2:{ intros [= _ <-]. rewrite Eo. split; [apply only_marked_refl|].
        by repeat split. }
    destruct (begin fuel w1); [|done]. unfold and_then.
    destruct (Launch_loop l w1) as [[s2 w2]|] eqn:E; [|done].
    apply Launch_loop_frame in E
      as (Hm & _ & Ep2 & (N1 & N2 & N3 & N4 & N5) & _).
    rewrite Eo in Hm.
    destruct (IsOk s2); intros [= _ <-]; unfold same_members; cbn;
      (split; [exact Hm|]; split; [by etrans|]; repeat split; congruence). }
  destruct H as (Hm & Hp & Hs). split; [exact Hm|]. split; [exact Hp|].
  split; [exact Hs|]. split.
  - intros p sh. by apply repr_only_marked.
  - apply ids_inv_only_marked; [exact Hm|]. by destruct Hs.
Qed.

(** X17.  With profiling enabled, [Launch] on a Ready tree first
    initializes the profiling manager and then asks for the monitor task.
    When the initialization fails, or when the task group refuses the
    monitor task, [Launch] returns that failure: no operator has been
    marked, no task has been added, and the tree is still Ready. *)
Theorem Launch_profiling_failure (fuel : nat) this w s s0 e0 :
  tree_state_ (tree w) = kDeTStateReady ->
  repr (ops w) (root_ (tree w)) s ->
  (height s <= fuel)%nat ->
  IsProfilingEnable (ext w) = true ->
  ProfilingInitialize (ext w) = (s0, e0) ->
  (IsOk s0 = false ->
     Launch fuel this w
       = Some (s0, {| tree := tree w; ops := ops w; ext := e0 |})) /\
  (IsOk s0 = true ->
   IsOk (tg_admit (tg_ (tree w)) monitor_task) = false ->
     Launch fuel this w
       = Some (tg_admit (tg_ (tree w)) monitor_task,
               {| tree := tree w; ops := ops w; ext := e0 |})).
Proof.
  intros Hst Hrep Hfuel Hen Hinit.
  split.
  - intros Hfail. unfold Launch. destruct (decide _) as [Hn|_]; [done|].
    unfold Print. rewrite (PrintNode_repr _ _ _ _ Hrep Hfuel). rewrite Hen.
    unfold and_then, profiling_Initialize. rewrite Hinit.
    cbv beta iota zeta. rewrite Hfail. cbv beta iota. by rewrite Hfail.
  - intros Hok Hrefuse. unfold Launch. destruct (decide _) as [Hn|_]; [done|].
    unfold Print. rewrite (PrintNode_repr _ _ _ _ Hrep Hfuel). rewrite Hen.
    unfold and_then, profiling_Initialize, CreateAsyncTask. rewrite Hinit.
    cbv beta iota zeta. rewrite Hok. cbn [tree ops ext]. fold monitor_task.
    rewrite Hrefuse. cbv beta iota. by rewrite Hrefuse.
Qed.

(** The loop of [Launch] over the nodes [l1], whose tasks are accepted, and
    what follows them. *)
Lemma Launch_loop_prefix l1 : forall rest w,
  (forall a, a ∈ l1 -> is_Some (ops w !! a)) ->
  (forall g t, t ∈ op_tasks (ops w) l1 -> IsOk (tg_admit g t) = true) ->
  Launch_loop (map Some l1 ++ rest) w
    = Launch_loop rest
        {| tree := with_tg (tg_ (tree w) ++ op_tasks (ops w) l1) (tree w);
           ops := mark_running l1 (ops w);
           ext := ext w |}.
Proof.
  induction l1 as [|a l1 IH]; intros rest w Hall Hadmit.
  - cbn. f_equal. destruct w as [[] ? ?]. cbn. by rewrite app_nil_r.
  - destruct (Hall a) as [o Ho]; [left|].
    cbn [map app Launch_loop]. rewrite Ho.
    assert (Hm : <[a := set_state kDeOpRunning o]> (ops w) = mark a (ops w)).
    { unfold mark. by rewrite Ho. }
    assert (Hall' : forall b, b ∈ l1 -> is_Some (mark a (ops w) !! b)).
    { intros b Hb. apply is_Some_mark, Hall. by right. }
    rewrite Hm.
    assert (Htasks : op_tasks (ops w) (a :: l1)
                     = op_task (ops w) a ++ op_tasks (ops w) l1) by done.
    assert (Hadmit' : forall g t,
              t ∈ op_tasks (mark a (ops w)) l1 -> IsOk (tg_admit g t) = true).
    { intros g t Ht. apply Hadmit. rewrite Htasks, op_tasks_mark in *.
      apply elem_of_app. by right. }
    assert (Htask_a : op_task (ops w) a
                      = if inlined o then []
                        else [mkTask (op_label o) (RunOp a)]).
    { unfold op_task. by rewrite Ho. }
    rewrite Htasks, Htask_a.
    destruct (inlined o) eqn:Einl; cbn [negb].
    + rewrite IH by first [exact Hall' | exact Hadmit'].
      cbn [with_ops tree ops ext app]. by rewrite op_tasks_mark.
    + unfold and_then, CreateAsyncTask.
      assert (Hok : forall g, IsOk (tg_admit g (mkTask (op_label o) (RunOp a)))
                              = true).
      { intros g. apply Hadmit. rewrite Htasks, Htask_a. by left. }
      unfold op_label in Hok. rewrite Hok.
      cbn [with_ops with_tree tree ops ext tg_].
      rewrite Hok.
      rewrite IH by first [exact Hall' | exact Hadmit'].
      unfold with_tree, with_ops, with_tg.
      cbn [tree ops ext tg_ tree_state_ id_count_
           root_ prepare_flags_ eoe_stack_ sampler_stack_].
      rewrite op_tasks_mark. unfold op_label. by rewrite <- app_assoc.
Qed.

(** X18.  [Launch] stops at the first task that the task group refuses and
    rolls nothing back.  On a Ready tree (profiling disabled) whose
    postorder is [l1 ++ a :: l2], when the tasks of the nodes [l1] are
    accepted and the task of [a], which is not inlined, is refused,
    [Launch] returns that failure; the nodes [l1] and [a] are Running and
    the tasks of [l1] are in the task group; the nodes after [a] are
    untouched and the tree is still Ready. *)
Theorem Launch_first_refusal (fuel : nat) this w s l1 a l2 o :
  tree_state_ (tree w) = kDeTStateReady ->
  repr (ops w) (root_ (tree w)) s ->
  (height s <= fuel)%nat ->
  IsProfilingEnable (ext w) = false ->
  postorder s = l1 ++ a :: l2 ->
  ops w !! a = Some o ->
  inlined o = false ->
  (forall g t, t ∈ op_tasks (ops w) l1 -> IsOk (tg_admit g t) = true) ->
  IsOk (tg_admit (tg_ (tree w) ++ op_tasks (ops w) l1)
          (mkTask (op_label o) (RunOp a))) = false ->
  Launch fuel this w
    = Some (tg_admit (tg_ (tree w) ++ op_tasks (ops w) l1)
              (mkTask (op_label o) (RunOp a)),
            {| tree := with_tg (tg_ (tree w) ++ op_tasks (ops w) l1) (tree w);
               ops := mark_running (l1 ++ [a]) (ops w);
               ext := ext w |}) /\
  (forall b, b ∉ l1 ++ [a] ->
     mark_running (l1 ++ [a]) (ops w) !! b = ops w !! b) /\
  (forall b, b ∈ l1 ++ [a] ->
     mark_running (l1 ++ [a]) (ops w) !! b
       = set_state kDeOpRunning <$> ops w !! b).
Proof.
  intros Hst Hrep Hfuel Hen Hpost Ho Hinl Hadmit Hrefuse.
  split; [|split].
  - pose proof (repr_lookup _ _ _ Hrep) as Hall.
    unfold Launch. destruct (decide _) as [Hn|_]; [done|].
    unfold Print. rewrite (PrintNode_repr _ _ _ _ Hrep Hfuel). rewrite Hen.
    unfold and_then at 1, RETURN at 1. cbn [IsOk Status_OK get_code].
    unfold begin, Iterator.
    rewrite (PostOrderTraverse_repr _ _ [] _ _ Hrep Hfuel). cbn [app].
    rewrite Hpost, map_app, <- app_assoc. unfold and_then at 1.
    rewrite Launch_loop_prefix.
    2:{ intros b Hb. apply Hall. rewrite Hpost. apply elem_of_app. by left. }
    2:{ exact Hadmit. }
    cbn [map app Launch_loop ops].
    assert (Hlook : exists o', mark_running l1 (ops w) !! a = Some o' /\
                      inlined o' = inlined o /\
                      operator_id_ o' = operator_id_ o).
    { rewrite lookup_mark_running, Ho.
      destruct (decide _); eexists; (split; [reflexivity|]); by split. }
    destruct Hlook as (o' & Ho' & Ei & Eid). rewrite Ho', Ei, Hinl.
    cbn [negb]. rewrite Eid. fold (op_label o).
    set (wmid := with_ops _ _).
    assert (Hc : CreateAsyncTask (op_label o) (RunOp a) wmid
                 = Some (tg_admit (tg_ (tree w) ++ op_tasks (ops w) l1)
                           (mkTask (op_label o) (RunOp a)), wmid)).
    { unfold CreateAsyncTask. cbv zeta. subst wmid.
      cbn [with_ops tree tg_ with_tg]. by rewrite Hrefuse. }
    unfold and_then. rewrite Hc, Hrefuse. rewrite Hrefuse.
    do 2 f_equal. subst wmid. unfold with_ops. cbn [tree ops ext]. f_equal.
    unfold mark_running at 2. rewrite fold_left_app. cbn [fold_left].
    fold (mark_running l1 (ops w)). unfold mark. by rewrite Ho'.
  - intros b Hb. rewrite lookup_mark_running. by destruct (decide _).
  - intros b Hb. rewrite lookup_mark_running. by destruct (decide _).
Qed.

(** *** From construction to execution *)

Lemma AssociateNodes_new_run this nodes : forall w,
  tree_state_ (tree w) = kDeTStateInit
    \/ tree_state_ (tree w) = kDeTStateBuilding ->
  NoDup nodes ->
  (forall a, a ∈ nodes ->
     exists o, ops w !! a = Some o /\ tree_ o <> Some this) ->
  int32_min <= id_count_ (tree w) ->
  id_count_ (tree w) + Z.of_nat (length nodes) <= int32_max ->
  exists w',
    AssociateNodes this nodes w = Some (Status_OK, w') /\
    tree w' = with_id_count (id_count_ (tree w) + Z.of_nat (length nodes))
                (with_tree_state
                   (match nodes with
                    | [] => tree_state_ (tree w)
                    | _ => kDeTStateBuilding
                    end) (tree w)) /\
    ext w' = ext w /\
    (forall (i : nat) a, nodes !! i = Some a ->
       exists o, ops w !! a = Some o /\
         ops w' !! a
           = Some (associated this (id_count_ (tree w) + Z.of_nat i) o)) /\
    (forall a, a ∉ nodes -> ops w' !! a = ops w !! a).
Proof.
  unfold AssociateNodes. intros w Hst Hnd. revert w Hst.
  induction Hnd as [|a l Hnotin Hnd IH]; intros w Hst Hall Hlo Hhi.
  - exists w. cbn. split; [done|]. split.
    + rewrite Z.add_0_r. by destruct w as [[] ? ?].
    + split; [done|]. split; [|done]. intros i a Hi. by destruct i.
  - destruct (Hall a) as (o & Ho & Hnew); [left|].
    cbn [for_each_ok]. unfold and_then at 1. cbn [length] in Hhi.
    rewrite (AssociateNode_new this a w o Ho Hnew Hst) by lia.
    cbn [IsOk Status_OK get_code].
    set (w1 := {| tree := with_id_count (id_count_ (tree w) + 1)
                            (with_tree_state kDeTStateBuilding (tree w));
                  ops := <[a := associated this (id_count_ (tree w)) o]>
                           (ops w);
                  ext := ext w |}).
    assert (Hother : forall b, b <> a -> ops w1 !! b = ops w !! b).
    { intros b Hb. cbn. by apply lookup_insert_ne. }
    destruct (IH w1) as (w' & Hrun & Htree & Hext & Hids & Hframe).
    { by right. }
    { intros b Hb. destruct (Hall b) as (ob & Hob & Hnb); [by right|].
      exists ob. split; [|exact Hnb]. rewrite Hother; [exact Hob|].
      by intros ->. }
    { cbn [w1 tree id_count_ with_id_count]. lia. }
    { cbn [w1 tree id_count_ with_id_count]. lia. }
    exists w'. split; [exact Hrun|]. split; [|split; [exact Hext|split]].
    + rewrite Htree. cbn [w1 tree id_count_ with_id_count with_tree_state
                          tree_state_ root_ prepare_flags_ eoe_stack_
                          sampler_stack_ tg_ length].
      replace (id_count_ (tree w) + 1 + Z.of_nat (length l))
        with (id_count_ (tree w) + Z.of_nat (S (length l))) by lia.
      by destruct l.
    + intros [|i] b Hi; cbn in Hi.
      * injection Hi as <-. exists o. split; [exact Ho|].
        rewrite (Hframe a Hnotin). cbn. rewrite lookup_insert_eq.
        do 2 f_equal. lia.
      * assert (Hb : b ∈ l) by (apply list_elem_of_lookup; eauto).
        destruct (Hids i b Hi) as (ob & Hob & Hres).
        assert (b <> a) by (by intros ->).
        exists ob. split; [by rewrite <- Hother|].
        rewrite Hres. do 2 f_equal. cbn [w1 tree id_count_ with_id_count].
        lia.
    + intros b Hb. apply not_elem_of_cons in Hb as [Hba Hbl].
      rewrite (Hframe b Hbl). by apply Hother.
Qed.

Lemma repr_same_children h h' s : forall p,
  (forall a o, h !! a = Some o ->
     exists o', h' !! a = Some o' /\ child_ o' = child_ o) ->
  repr h p s -> repr h' p s.
Proof.
  induction s as [a cs IH] using Shape_ind'. intros p Hsame Hrep.
  inversion Hrep as [a' o cs' Ho Hcs]; subst.
  destruct (Hsame a o Ho) as (o' & Ho' & Hch).
  eapply repr_node; [exact Ho'|]. rewrite Hch. clear -IH Hcs Hsame.
  revert IH. induction Hcs as [|q c qs cs Hq _ IHcs]; intros IH;
    [constructor|].
  inversion IH as [|? ? Hc Hrest]; subst.
  constructor; [by apply Hc | by apply IHcs].
Qed.

Lemma op_tasks_mark_running l : forall h l',
  op_tasks (mark_running l h) l' = op_tasks h l'.
Proof.
  induction l as [|a l IH]; intros h l'; [done|].
  cbn [mark_running fold_left]. fold (mark_running l (mark a h)).
  by rewrite IH, op_tasks_mark.
Qed.

(** The walk changes nothing of the tree but the mask and what the hooks
    change. *)
Lemma PrepareNode_members this :
  stack_only_hook PrepareNodePreAction ->
  stack_only_hook PrepareNodePostAction ->
  forall (fuel : nat) p w s w',
    PrepareNode fuel this p w = Some (s, w') ->
    tree_state_ (tree w') = tree_state_ (tree w) /\
    id_count_ (tree w') = id_count_ (tree w) /\
    root_ (tree w') = root_ (tree w) /\
    tg_ (tree w') = tg_ (tree w).
Proof.
  intros Hpre Hpost. induction fuel as [|fuel IH]; intros p w s w'; [done|].
  cbn [PrepareNode]. destruct p as [a|]; [|done].
  destruct (ops w !! a); [|done]. unfold and_then at 1, hook at 1.
  destruct (Hpre a w) as (_ & _ & P1 & P2 & P3 & _ & P4).
  destruct (PrepareNodePreAction a w) as [s1 w1]. cbn [snd] in *.
  destruct (IsOk s1); [|by intros [= _ <-]].
  cbn zeta. destruct (ops (set_prepare_flags _ w1) !! a) as [o|]; [|done].
  unfold and_then at 1.
  assert (Hloop : forall cs w0 s0 w0',
    for_each_ok (PrepareNode fuel this) cs w0 = Some (s0, w0') ->
    tree_state_ (tree w0') = tree_state_ (tree w0) /\
    id_count_ (tree w0') = id_count_ (tree w0) /\
    root_ (tree w0') = root_ (tree w0) /\
    tg_ (tree w0') = tg_ (tree w0)).
  { induction cs as [|c cs IHcs]; intros w0 s0 w0'; cbn [for_each_ok].
    - by intros [= _ <-].
    - unfold and_then.
      destruct (PrepareNode fuel this c w0) as [[s2 w2]|] eqn:E; [|done].
      apply IH in E as (E1 & E2 & E3 & E4).
      destruct (IsOk s2); [|by intros [= _ <-]].
      intros H. apply IHcs in H as (F1 & F2 & F3 & F4).
      repeat split; congruence. }
  destruct (for_each_ok _ _ _) as [[s2 w2]|] eqn:E; [|done].
  apply Hloop in E as (E1 & E2 & E3 & E4). cbn in E1, E2, E3, E4.
  destruct (IsOk s2); [|intros [= _ <-]; repeat split; congruence].
  unfold and_then at 1, hook at 1.
  destruct (Hpost a w2) as (_ & _ & Q1 & Q2 & Q3 & _ & Q4).
  destruct (PrepareNodePostAction a w2) as [s3 w3]. cbn [snd] in *.
  destruct (IsOk s3); intros [= _ <-]; cbn; repeat split; congruence.
Qed.

Lemma stack_only_hook_quiet (f : addr -> World Ext -> Status * World Ext) :
  stack_only_hook f -> quiet_hook f.
Proof.
  intros H a w. destruct (H a w) as (H1 & H2 & _ & _ & _ & H3 & _).
  by repeat split.
Qed.

(** X19.  The whole life of a tree.  Let the store hold a tree of shape
    [s] with root [r], no operator twice, none of them of this tree yet;
    let this tree be Init or Building with a counter [c] that is not
    negative and has room for the [n] operators ([c + n] does not exceed
    the largest 32-bit value); and let the collaborators not fail (the removal pass succeeds
    and changes nothing, the hooks succeed and touch at most the two stacks
    and their own state, profiling is disabled, the task group accepts every
    task).  Then a builder that associates the operators in postorder, makes
    [r] the root, prepares and launches succeeds at every step: the tree is
    Executing with root [r] and counter [c + n]; the operator at position
    [i] of the postorder has the id [c + i], is of this tree and Running;
    and the task group has received the tasks of the operators that are not
    inlined, in postorder, labelled with these ids. *)
Theorem build_and_launch_succeeds (fuel : nat) this w s r :
  tree_state_ (tree w) = kDeTStateInit
    \/ tree_state_ (tree w) = kDeTStateBuilding ->
  0 <= id_count_ (tree w) ->
  id_count_ (tree w) + Z.of_nat (length (postorder s)) <= int32_max ->
  repr (ops w) (Some r) s ->
  (height s <= fuel)%nat ->
  NoDup (postorder s) ->
  (forall a o, a ∈ postorder s -> ops w !! a = Some o ->
     tree_ o <> Some this) ->
  (forall w0, RemovalPass this false w0 = (Status_OK, false, w0)) ->
  stack_only_hook PrepareNodePreAction ->
  stack_only_hook PrepareNodePostAction ->
  (forall e, IsProfilingEnable e = false) ->
  (forall g t, IsOk (tg_admit g t) = true) ->
  exists w',
    build_and_launch fuel this (postorder s) r w = Some (Status_OK, w') /\
    tree_state_ (tree w') = kDeTStateExecuting /\
    root_ (tree w') = Some r /\
    id_count_ (tree w')
      = id_count_ (tree w) + Z.of_nat (length (postorder s)) /\
    (forall (i : nat) a, postorder s !! i = Some a ->
       exists o, ops w !! a = Some o /\
         ops w' !! a
           = Some (set_state kDeOpRunning
                     (associated this (id_count_ (tree w) + Z.of_nat i) o))) /\
    tg_ (tree w') = tg_ (tree w) ++ op_tasks (ops w') (postorder s).
Proof.
  intros Hst Hc Hmax Hrep Hfuel Hnd Hnew Hpass Hpre Hpost Hprof Hadmit.
  pose proof (repr_lookup _ _ _ Hrep) as Hall.
  assert (Hr : r ∈ postorder s).
  { inversion Hrep; subst. cbn [postorder]. apply elem_of_app. right.
    by left. }
  (* association *)
  destruct (AssociateNodes_new_run this (postorder s) w Hst Hnd)
    as (w1 & Hrun1 & Htree1 & Hext1 & Hids1 & Hframe1).
  { intros a Ha. destruct (Hall a Ha) as [o Ho]. exists o.
    split; [exact Ho|]. by apply (Hnew a o). }
  { unfold int32_min. lia. }
  { exact Hmax. }
  assert (Hne : postorder s <> []).
  { intros E. rewrite E in Hr. by apply elem_of_nil in Hr. }
  assert (Hstate1 : tree_state_ (tree w1) = kDeTStateBuilding).
  { rewrite Htree1. by destruct (postorder s). }
  assert (Hch1 : forall a o, ops w !! a = Some o ->
                   exists o', ops w1 !! a = Some o' /\ child_ o' = child_ o).
  { intros a o Ho. destruct (decide (a ∈ postorder s)) as [Hin|Hnin].
    - apply list_elem_of_lookup in Hin as [i Hi].
      destruct (Hids1 i a Hi) as (o0 & Ho0 & Hres).
      rewrite Ho in Ho0. injection Ho0 as <-. by eexists.
    - exists o. by rewrite Hframe1. }
  pose proof (repr_same_children _ _ _ _ Hch1 Hrep) as Hrep1.
  (* the root *)
  apply list_elem_of_lookup in Hr as [ir Hir].
  destruct (Hids1 ir r Hir) as (or & Hor & Hor1).
  set (w2 := with_tree (with_root (Some r) (tree w1)) w1).
  assert (Hrun2 : AssignRoot this r w1 = Some (Status_OK, w2)).
  { unfold AssignRoot. destruct (decide _) as [Hn|_]; [done|].
    rewrite Hor1. unfold and_then.
    destruct (decide _) as [Hid|_]; [|done].
    cbn in Hid. unfold kInvalidOperatorId in Hid. lia. }
  (* preparation *)
  set (w2p := with_tree (with_tree_state kDeTStatePrepare (tree w2)) w2).
  destruct (PrepareNode_walk this (stack_only_hook_quiet _ Hpre)
              (stack_only_hook_quiet _ Hpost) s fuel (root_ (tree w2p)) w2p)
    as (w3 & Hwalk & Hops3 & _); [exact Hrep1 | exact Hfuel |].
  destruct (PrepareNode_members this Hpre Hpost _ _ _ _ _ Hwalk)
    as (M1 & M2 & M3 & M4).
  set (w4 := with_tree (with_tree_state kDeTStateReady (tree w3)) w3).
  assert (Hrun3 : Prepare fuel this w2 = Some (Status_OK, w4)).
  { unfold Prepare, and_then at 1.
    rewrite PrepareTreePreAction_pass, Hpass.
    cbn [IsOk Status_OK get_code].
    unfold and_then at 1, Optimize at 1, RETURN at 1.
    cbn [IsOk Status_OK get_code].
    unfold and_then at 1, PrepareTreePostAction at 1.
    cbn [IsOk Status_OK get_code]. fold w2p.
    unfold and_then at 1, PrepareDeprecated.
    destruct (decide _) as [Hn|_]; [by destruct Hn|].
    unfold and_then at 1. rewrite Hwalk. by cbn [IsOk Status_OK get_code]. }
  (* launch *)
  assert (Hrep4 : repr (ops w4) (root_ (tree w4)) s).
  { cbn [w4 with_tree tree ops with_tree_state root_]. by rewrite M3, Hops3. }
  assert (Hall4 : forall a, a ∈ postorder s -> is_Some (ops w4 !! a)).
  { by apply (repr_lookup _ _ _ Hrep4). }
  set (w5 := {| tree := with_tree_state kDeTStateExecuting
                          (with_tg (tg_ (tree w4)
                                      ++ op_tasks (ops w4) (postorder s))
                             (tree w4));
                ops := mark_running (postorder s) (ops w4);
                ext := ext w4 |}).
  assert (Hrun4 : Launch fuel this w4 = Some (Status_OK, w5)).
  { unfold Launch. destruct (decide _) as [Hn|_]; [by destruct Hn|].
    unfold Print. rewrite (PrintNode_repr _ _ _ _ Hrep4 Hfuel).
    rewrite Hprof. unfold and_then at 1, RETURN at 1.
    cbn [IsOk Status_OK get_code]. unfold begin, Iterator.
    rewrite (PostOrderTraverse_repr _ _ [] _ _ Hrep4 Hfuel). cbn [app].
    unfold and_then. rewrite (Launch_loop_all _ Hadmit) by exact Hall4.
    by cbn [IsOk Status_OK get_code]. }
  exists w5. split; [|split; [done|split; [|split; [|split]]]].
  - unfold build_and_launch, and_then. rewrite Hrun1.
    cbn [IsOk Status_OK get_code]. rewrite Hrun2.
    cbn [IsOk Status_OK get_code]. rewrite Hrun3.
    cbn [IsOk Status_OK get_code]. exact Hrun4.
  - cbn. by rewrite M3.
  - cbn. rewrite M2. cbn. by rewrite Htree1.
  - intros i a Hi. destruct (Hids1 i a Hi) as (o & Ho & Ho1).
    exists o. split; [exact Ho|]. cbn [w5 ops].
    rewrite lookup_mark_running.
    destruct (decide _) as [_|Hn];
      [|destruct Hn; apply list_elem_of_lookup; eauto].
    cbn [w4 with_tree ops]. rewrite Hops3. cbn [w2p w2 with_tree ops].
    by rewrite Ho1.
  - cbn [w5 tree ops with_tree_state with_tg tg_].
    rewrite op_tasks_mark_running. f_equal.
    cbn [w4 with_tree tree with_tree_state tg_]. rewrite M4. cbn.
    by rewrite Htree1.
Qed.

(** *** Null children *)

Lemma PostOrderTraverse_null (fuel : nat) h acc :
  PostOrderTraverse fuel h None acc = Some acc.
Proof. by destruct fuel. Qed.

Lemma PostOrderTraverse_without_null (fuel : nat) h : forall p acc,
  PostOrderTraverse fuel h p acc
    = PostOrderTraverse fuel (without_null_children <$> h) p acc.
Proof.
  induction fuel as [|fuel IH]; intros [a|] acc; try done.
  cbn [PostOrderTraverse]. rewrite lookup_fmap.
  destruct (h !! a) as [o|]; [|done]. cbn [fmap option_fmap option_map].
  assert (Hloop : forall cs acc0,
    for_each (PostOrderTraverse fuel h) cs acc0
    = for_each (PostOrderTraverse fuel (without_null_children <$> h))
        (List.filter (fun p : shared_ptr =>
                        match p with Some _ => true | None => false end) cs)
        acc0).
  { induction cs as [|[c|] cs IHcs]; intros acc0; [done| |].
    - cbn [List.filter for_each]. rewrite <- IH.
      destruct (PostOrderTraverse fuel h (Some c) acc0); [apply IHcs|done].
    - cbn [List.filter for_each]. rewrite PostOrderTraverse_null.
      apply IHcs. }
  cbn [without_null_children child_]. by rewrite Hloop.
Qed.

(** X20.  Null pointers in a [child_] vector: the postorder iterator skips
    them (it is the iterator of the store in which every [child_] vector has
    lost its null pointers), while the printer has no null check and
    dereferences them: [PrintNode] on a node with a null child has no
    defined outcome. *)
Theorem null_children (fuel : nat) h root :
  Iterator fuel h root = Iterator fuel (without_null_children <$> h) root /\
  (forall a o, h !! a = Some o -> None ∈ child_ o ->
     PrintNode fuel h (Some a) = None).
Proof.
  split.
  - unfold Iterator. by rewrite <- PostOrderTraverse_without_null.
  - intros a o Ho Hnull. destruct fuel as [|fuel]; [done|].
    cbn [PrintNode]. rewrite Ho. revert Hnull. generalize (child_ o).
    intros cs. induction cs as [|c cs IHcs]; intros Hin.
    + by apply elem_of_nil in Hin.
    + cbn [for_each]. apply elem_of_cons in Hin as [<-|Hin].
      * by destruct fuel.
      * destruct (PrintNode fuel h c) as [[]|]; [by apply IHcs | done].
Qed.

End MoreProperties.

(** ** The further theorems at work on the examples *)

Lemma LaunchWorkers_all_witness :
  LaunchWorkers (logging_CreateTask Example2.accept_all) Example2.index_of
      3 tt []
    = (Status_OK,
       [("Parallel Op Worker", 0); ("Parallel Op Worker", 1);
        ("Parallel Op Worker", 2)]).
Proof.
  apply (LaunchWorkers_all Example2.accept_all Example2.index_of 3 tt []).
  reflexivity.
Defined.

Lemma LaunchWorkers_first_refusal_witness :
  LaunchWorkers (logging_CreateTask Example2.refuse_one) Example2.index_of
      3 tt []
    = (Example.spawn_failure, [("Parallel Op Worker", 0)]).
Proof.
  apply (LaunchWorkers_first_refusal Example2.refuse_one Example2.index_of
           3 1 tt []).
  - lia.
  - intros j Hj. assert (j = 0) as -> by lia. reflexivity.
  - reflexivity.
Defined.

Lemma PrintNode_details_preorder_witness :
  PrintNode_out Example2.show_addr Example2.show_addr 3 Example.store4
      (Some Example.R) "    " false true "tree: "
    = Some "tree: <1><2><4><3>".
Proof.
  apply (PrintNode_details_preorder Example2.show_addr Example2.show_addr
           Example.store4 (Some Example.R) Example.shape4 3 "    " false
           "tree: " repr_store4).
  vm_compute. lia.
Defined.

Lemma PrintNode_summary_outline_witness :
  PrintNode_out Example2.show_addr Example2.show_addr 3 Example.store4
      (Some Example.R) "" true false ""
    = Some "+- <1>    +- <2>    |   +- <4>    +- <3>"
  /\ map snd (outline "" true Example.shape4)
     = [Example.R; Example.A; Example.C; Example.B]
  /\ map (fun l => String.length (fst l)) (outline "" true Example.shape4)
     = [0; 4; 8; 4]%nat.
Proof.
  apply (PrintNode_summary_outline Example2.show_addr Example2.show_addr
           Example.store4 (Some Example.R) Example.shape4 3 "" true ""
           repr_store4).
  vm_compute. lia.
Defined.

Lemma Print_output_witness :
  Print_out Example2.show_addr Example2.show_addr 3 Example.built3 None ""
    = Some ("Execution tree summary:" +:+ newline
            +:+ "-----------------------" +:+ newline
            +:+ "+- <10>    +- <11>        +- <12>"
            +:+ newline +:+ "Execution tree operator details:" +:+ newline
            +:+ "--------------------------------" +:+ newline
            +:+ "<10><11><12>").
Proof.
  apply (Print_output Example2.show_addr Example2.show_addr Example.built3
           None Example.shape3 3 "" repr_store3_built).
  vm_compute. lia.
Defined.

Lemma AssociateNode_invalid_state_witness :
  exists s,
    AssociateNode Example.this Example.Leaf Example2.late3
      = Some (s, Example2.late3) /\
    IsOk s = false /\
    InvalidState "adding a node" kDeTStateReady
      (" Expected states: " +:+ to_string 0 +:+ " or " +:+ to_string 1) s.
Proof.
  apply (AssociateNode_invalid_state Example.this Example.Leaf Example2.late3
           (Example.new_op [] 16)); [reflexivity | | |]; discriminate.
Defined.

Lemma AssignRoot_building_witness :
  exists w',
    AssignRoot Example.this Example.Top Example2.building3
      = Some (Status_OK, w') /\
    root_ (tree w') = Some Example.Top /\
    (operator_id_ <$> ops w' !! Example.Top) = Some 0 /\
    id_count_ (tree w') = 1.
Proof.
  destruct (AssignRoot_building Example.this Example.Top Example2.building3
              (Example.new_op [Some Example.Mid] 16))
    as (w' & Hrun & Hroot & _ & _ & Hassoc); [reflexivity | reflexivity |].
  destruct Hassoc as (Hop & _ & Hcnt & _); [reflexivity | discriminate |].
  exists w'. split; [exact Hrun|]. split; [exact Hroot|].
  split; [by rewrite Hop|]. apply Hcnt. unfold int32_min, int32_max. cbn. lia.
Defined.

Lemma store3_new a o :
  Example.store3 !! a = Some o -> tree_ o <> Some Example.this.
Proof.
  unfold Example.store3. intros H.
  apply lookup_insert_Some in H as [[_ <-]|[_ H]]; [discriminate|].
  apply lookup_insert_Some in H as [[_ <-]|[_ H]]; [discriminate|].
  apply lookup_insert_Some in H as [[_ <-]|[_ H]]; [discriminate|].
  by rewrite lookup_empty in H.
Qed.

Lemma ids_stay_sound_witness :
  exists w',
    AssociateNodes Example.this [Example.Leaf; Example.Mid; Example.Top]
      Example.world3 = Some (Status_OK, w') /\
    ids_inv Example.this w'.
Proof.
  eexists. split; [reflexivity|].
  apply (proj1 (proj2 (proj2 (proj2 (ids_stay_sound Example.this))))
           Example.world3 [Example.Leaf; Example.Mid; Example.Top]
           Status_OK); [| |reflexivity].
  - apply (proj1 (ids_stay_sound Example.this)); [reflexivity|].
    exact store3_new.
  - unfold int32_max. cbn. lia.
Defined.

Lemma AssociateNodes_counts_new_witness :
  exists w',
    AssociateNodes Example.this
      [Example.Leaf; Example.Mid; Example.Leaf; Example.Top; Example.Mid]
      Example.world3 = Some (Status_OK, w') /\
    id_count_ (tree w') = 3.
Proof.
  destruct (AssociateNodes_counts_new Example.this
              [Example.Leaf; Example.Mid; Example.Leaf; Example.Top;
               Example.Mid] Example.world3)
    as (w' & Hrun & Hcnt & _).
  - left. reflexivity.
  - intros a Ha. rewrite !elem_of_cons in Ha.
    destruct Ha as [->|[->|[->|[->|[->|Ha]]]]];
      [| | | | |by apply elem_of_nil in Ha]; by eexists.
  - unfold int32_min. cbn. lia.
  - vm_compute. discriminate.
  - exists w'. split; [exact Hrun|]. rewrite Hcnt. vm_compute. reflexivity.
Defined.

Lemma PrepareDeprecated_invalid_state_witness :
  exists s,
    PrepareDeprecated (collaborators := Example.quiet) 3 Example.this
        Example.built3 = Some (s, Example.built3) /\
    IsOk s = false /\
    InvalidState "preparing the tree" kDeTStateBuilding
      (" Expected state: " +:+ to_string 2) s.
Proof.
  apply (PrepareDeprecated_invalid_state (collaborators := Example.quiet) 3
           Example.this Example.built3).
  discriminate.
Defined.


Lemma quiet_hooks_quiet :
  quiet_hook (PrepareNodePreAction (Collaborators := Example.quiet)) /\
  quiet_hook (PrepareNodePostAction (Collaborators := Example.quiet)).
Proof. split; intros a w; repeat split. Qed.

Lemma Prepare_ready_witness :
  exists w',
    Prepare (collaborators := Example.quiet) 3 Example.this Example.built3
      = Some (Status_OK, w') /\
    tree_state_ (tree w') = kDeTStateReady /\
    ops w' = Example.store3_built.
Proof.
  destruct (Prepare_ready (collaborators := Example.quiet) 3 Example.this
              Example.built3 Status_OK false Example.built3 Example.shape3)
    as (w' & Hrun & Hst & Hops & _).
  - reflexivity.
  - reflexivity.
  - exact repr_store3_built.
  - vm_compute. lia.
  - exact (proj1 quiet_hooks_quiet).
  - exact (proj2 quiet_hooks_quiet).
  - exists w'. split; [exact Hrun|]. split; [exact Hst | exact Hops].
Defined.

Lemma Prepare_without_root_witness :
  Prepare (collaborators := Example.quiet) 3 Example.this Example.world3
    = None.
Proof.
  apply (Prepare_without_root (collaborators := Example.quiet) 3 Example.this
           Example.world3 Status_OK false Example.world3); reflexivity.
Defined.

Lemma Launch_touches_only_states_witness :
  only_marked (ops Example.ready3) (ops Example.executing3) /\
  tg_ (tree Example.ready3) `prefix_of` tg_ (tree Example.executing3) /\
  repr (ops Example.executing3) (Some Example.Top) Example.shape3.
Proof.
  destruct (Launch_touches_only_states (collaborators := Example.quiet) 3
              Example.this Example.ready3 Status_OK Example.executing3)
    as (Hm & Hp & _ & Hrepr & _).
  - vm_compute. reflexivity.
  - split; [exact Hm|]. split; [exact Hp|].
    apply Hrepr. exact repr_store3_built.
Defined.

Lemma Launch_profiling_failure_witness :
  Launch (collaborators := Example2.profiling_fails) 3 Example.this
      Example.ready3
    = Some (Example2.profiling_failure, Example.ready3).
Proof.
  apply (Launch_profiling_failure (collaborators := Example2.profiling_fails)
           3 Example.this Example.ready3 Example.shape3
           Example2.profiling_failure tt).
  - reflexivity.
  - exact repr_store3_built.
  - vm_compute. lia.
  - reflexivity.
  - reflexivity.
  - reflexivity.
Defined.

Lemma Launch_first_refusal_witness :
  Launch (collaborators := Example2.refusing_top) 3 Example.this
      Example.ready3
    = Some (Example.spawn_failure,
            {| tree := Example.tree3 kDeTStateReady
                         [mkTask "Op launched, OperatorId:0"
                            (RunOp Example.Leaf)];
               ops := mark_running [Example.Leaf; Example.Mid; Example.Top]
                        Example.store3_built;
               ext := tt |}).
Proof.
  apply (Launch_first_refusal (collaborators := Example2.refusing_top) 3
           Example.this Example.ready3 Example.shape3
           [Example.Leaf; Example.Mid] Example.Top []
           (Example.built_op 2 kDeOpIdle [Some Example.Mid] 16)).
  - reflexivity.
  - exact repr_store3_built.
  - vm_compute. lia.
  - reflexivity.
  - reflexivity.
  - reflexivity.
  - reflexivity.
  - intros g t Ht. vm_compute in Ht.
    apply list_elem_of_singleton in Ht as ->. reflexivity.
  - reflexivity.
Defined.

Lemma repr_store3 : repr Example.store3 (Some Example.Top) Example.shape3.
Proof.
  eapply repr_node; [reflexivity|]. repeat constructor.
  eapply repr_node; [reflexivity|]. repeat constructor.
  eapply repr_node; [reflexivity|]. constructor.
Qed.

Lemma quiet_hooks_stack_only :
  stack_only_hook (PrepareNodePreAction (Collaborators := Example.quiet)) /\
  stack_only_hook (PrepareNodePostAction (Collaborators := Example.quiet)).
Proof. split; intros a w; repeat split. Qed.

Lemma build_and_launch_succeeds_witness :
  exists w',
    build_and_launch (collaborators := Example.quiet) 3 Example.this
        [Example.Leaf; Example.Mid; Example.Top] Example.Top Example.world3
      = Some (Status_OK, w') /\
    tree_state_ (tree w') = kDeTStateExecuting /\
    root_ (tree w') = Some Example.Top /\
    id_count_ (tree w') = 3 /\
    ops w' !! Example.Top
      = Some (Example.built_op 2 kDeOpRunning [Some Example.Mid] 16).
Proof.
  destruct (build_and_launch_succeeds (collaborators := Example.quiet) 3
              Example.this Example.world3 Example.shape3 Example.Top)
    as (w' & Hrun & Hst & Hroot & Hcnt & Hops & _).
  - left. reflexivity.
  - reflexivity.
  - unfold int32_max. cbn. lia.
  - exact repr_store3.
  - vm_compute. lia.
  - apply (bool_decide_unpack _). vm_compute. exact I.
  - intros a o _. apply store3_new.
  - reflexivity.
  - exact (proj1 quiet_hooks_stack_only).
  - exact (proj2 quiet_hooks_stack_only).
  - reflexivity.
  - reflexivity.
  - exists w'. split; [exact Hrun|]. split; [exact Hst|].
    split; [exact Hroot|]. split; [exact Hcnt|].
    destruct (Hops 2%nat Example.Top eq_refl) as (o & Ho & ->).
    vm_compute in Ho. injection Ho as <-. reflexivity.
Defined.

Lemma null_children_witness :
  Iterator 3 Example2.store3_null (Some Example.Top)
    = Some [Some Example.Leaf; Some Example.Mid; Some Example.Top; None] /\
  PrintNode 3 Example2.store3_null (Some Example.Top) = None.
Proof.
  split.
  - rewrite (proj1 (null_children 3 Example2.store3_null (Some Example.Top))).
    vm_compute. reflexivity.
  - apply (proj2 (null_children 3 Example2.store3_null (Some Example.Top))
             Example.Top
             (Example.new_op [None; Some Example.Mid; None] 16)).
    + reflexivity.
    + left.
Defined.
